(** * TunnelProxy: a shallow embedding of appservice/src/TunnelProxy.ts

    The file follows the TypeScript source top to bottom: the host values the
    module receives, the [TunnelSocket] forwarder, the tunnel status
    interface, and the [TunnelProxy] server with its readiness polling.

    Asynchronous code is written in a small monad [Eff] that threads the
    mutable state, collects the calls made on the outside world as a list of
    [Effect]s, and completes by returning, by throwing, or not at all.
    Everything the outside world decides (HTTP answers, durations, which
    events fire) is an explicit input. *)

From Stdlib Require Import String Ascii List ZArith NArith Lia Bool Arith.
From Stdlib Require Import DecimalString.
Import ListNotations.
Open Scope string_scope.

(* ================================================================== *)
(** ** Host values *)

(** [SiteClient]: the two properties the module reads. *)
Record SiteClient := mkSiteClient {
  kuduHostName : string;
  defaultHostUrl : string
}.

(** [User] of azure-arm-website: the publishing credential. *)
Record User := mkUser {
  publishingUserName : string;
  publishingPassword : string
}.

Definition Buffer := list Byte.byte.

(** An error object created outside this module: the rejection of a
    request-promise call, the SyntaxError of JSON.parse, a socket error. *)
Record ForeignError := mkForeignError {
  errorName : string;
  errorMessage : string
}.

(** The values this module throws or sees thrown.
    [class RetryableTunnelStatusError extends Error { }] is private to the
    module, so no foreign error is an instance of it. *)
Inductive Thrown : Type :=
| RetryableTunnelStatusError
| JsError (msg : string)
| Foreign (e : ForeignError).

(** [error instanceof RetryableTunnelStatusError] *)
Definition instanceof_Retryable (error : Thrown) : bool :=
  match error with
  | RetryableTunnelStatusError => true
  | _ => false
  end.

(** Template-literal interpolation of an error, [`${err}`]. *)
Definition toString (err : Thrown) : string :=
  match err with
  | RetryableTunnelStatusError => "Error"
  | JsError m => "Error: " ++ m
  | Foreign e => errorName e ++ ": " ++ errorMessage e
  end.

Definition show_Z (z : Z) : string := NilZero.string_of_int (Z.to_int z).
Definition show_nat (n : nat) : string := NilZero.string_of_uint (Nat.to_uint n).

(** [IParsedError] of vscode-azureextensionui, the two fields used here. *)
Record IParsedError := mkParsedError {
  errorType : string;
  message : string
}.

(** [parseError] (vscode-azureextensionui) and [localize] (./localize) are
    imported by the module and are not part of it: they are parameters of the
    development. *)
Class Host := {
  parseError : Thrown -> IParsedError;
  localize : string -> string -> list string -> string
}.

(** Replaces the placeholder {0} of a message by the argument. *)
Fixpoint format0 (fmt arg : string) : string :=
  match fmt with
  | String "{" (String "0" (String "}" rest)) => arg ++ format0 rest arg
  | String c rest => String c (format0 rest arg)
  | EmptyString => EmptyString
  end.

(** A host to run the definitions on concrete inputs: the parser reads the
    name and the message off the error object, and there is no translation
    bundle, so that the English message is formatted. *)
Definition plainHost : Host :=
  {| parseError := fun err =>
       match err with
       | RetryableTunnelStatusError => mkParsedError "Error" ""
       | JsError m => mkParsedError "Error" m
       | Foreign e => mkParsedError (errorName e) (errorMessage e)
       end;
     localize := fun _ fmt args => format0 fmt (nth 0 args "") |}.

(* ================================================================== *)
(** ** Calls on the outside world *)

Record ListenOptions := mkListenOptions {
  listen_host : string;
  listen_port : Z;
  listen_backlog : Z
}.

Record ConnectRequest := mkConnectRequest {
  requestUrl : string;
  requestHeaders : list (string * string);
  requestAuth : string
}.

(** What a [TunnelSocket] emits to its owner. *)
Inductive Notification : Type :=
| NClose
| NError (err : Thrown).

(** A forwarder is identified by its position in the object heap. *)
Definition SocketRef := nat.

Inductive Effect : Type :=
| AppendLine (line : string)                       (* ext.outputChannel.appendLine *)
| GetStatus (uri userAgent user pass : string)     (* requestP.get(statusOptions) *)
| GetPing (uri : string)                           (* requestP.get of startupApp *)
| Delay (ms : N)                                   (* delay(ms) *)
| SocketPause (r : SocketRef)
| SocketResume (r : SocketRef)
| SocketWrite (r : SocketRef) (data : Buffer)
| SocketDestroy (r : SocketRef)
| WsClientConnect (r : SocketRef) (req : ConnectRequest)
| WsClientAbort (r : SocketRef)
| WsConnectionSend (r : SocketRef) (data : Buffer)
| WsConnectionClose (r : SocketRef)
| Emit (r : SocketRef) (n : Notification)          (* this.emit(...) of a TunnelSocket *)
| ServerListen (opts : ListenOptions)
| ServerClose
| ServerUnref.

(* ================================================================== *)
(** ** The effect monad *)

Inductive Completion (A : Type) : Type :=
| Returned (a : A)
| Threw (e : Thrown)
| Pending.
Arguments Returned {A} a.
Arguments Threw {A} e.
Arguments Pending {A}.

Definition Eff (S A : Type) : Type := S -> Completion A * S * list Effect.

Definition ret {S A} (a : A) : Eff S A := fun s => (Returned a, s, []).

Definition bind {S A B} (m : Eff S A) (k : A -> Eff S B) : Eff S B :=
  fun s =>
    let '(c, s1, out1) := m s in
    match c with
    | Returned a => let '(c2, s2, out2) := k a s1 in (c2, s2, (out1 ++ out2)%list)
    | Threw e => (Threw e, s1, out1)
    | Pending => (Pending, s1, out1)
    end.

Notation "x <- m ;; k" := (bind m (fun x => k))
  (at level 61, m at next level, right associativity).
Notation "m ;; k" := (bind m (fun _ => k))
  (at level 61, right associativity).

Definition throw {S A} (e : Thrown) : Eff S A := fun s => (Threw e, s, []).
Definition pending {S A} : Eff S A := fun s => (Pending, s, []).
Definition get {S} : Eff S S := fun s => (Returned s, s, []).
Definition modify {S} (f : S -> S) : Eff S unit := fun s => (Returned tt, f s, []).
Definition effect {S} (e : Effect) : Eff S unit := fun s => (Returned tt, s, [e]).
Definition appendLine {S} (line : string) : Eff S unit := effect (AppendLine line).

(** [try { body } catch (error) { handler }] *)
Definition tryCatch {S A} (body : Eff S A) (handler : Thrown -> Eff S A) : Eff S A :=
  fun s =>
    let '(c, s1, out1) := body s in
    match c with
    | Threw e => let '(c2, s2, out2) := handler e s1 in (c2, s2, (out1 ++ out2)%list)
    | _ => (c, s1, out1)
    end.

Definition completion {S A} (r : Completion A * S * list Effect) : Completion A := fst (fst r).
Definition final {S A} (r : Completion A * S * list Effect) : S := snd (fst r).
Definition effects {S A} (r : Completion A * S * list Effect) : list Effect := snd r.

(* ================================================================== *)
(** ** class TunnelSocket extends EventEmitter *)

(** The [net.Socket] handed to the forwarder, as far as the forwarder sees
    and drives it. *)
Record Socket := mkSocket {
  remoteAddress : string;
  remotePort : Z;
  paused : bool;               (* pause() / resume() *)
  destroyed : bool;            (* destroy() was called *)
  socket_listeners : bool      (* the 'data', 'close' and 'error' listeners of connect() *)
}.

(** The [websocket.client] created in the constructor. *)
Record WsClient := mkWsClient {
  client_listeners : bool;                 (* the 'connect' and 'connectFailed' listeners *)
  connect_request : option ConnectRequest; (* connect(...) was called with *)
  aborted : bool                           (* abort() was called *)
}.

(** The [websocket.connection] object the client hands over with 'connect'.
    The object outlives the field [_wsConnection]: its listeners stay
    installed after dispose() has cleared the field. *)
Record Connection := mkConnection {
  connection_listeners : bool;  (* the 'close', 'error' and 'message' listeners *)
  close_requested : bool        (* close() was called *)
}.

(** The field [_wsConnection] holds a reference to [connection] or undefined. *)
Inductive ConnectionRef : Type := TheConnection.

Record TunnelSocket := mkTunnelSocket {
  self : SocketRef;
  _socket : Socket;
  ts_client : SiteClient;
  ts_publishCredential : User;
  _wsConnection : option ConnectionRef;
  _wsClient : WsClient;
  connection : option Connection;   (* the connection object, once it exists *)
  close_listener : bool             (* the owner subscribed with on('close', ...) *)
}.

Definition set_socket (f : Socket -> Socket) (t : TunnelSocket) : TunnelSocket :=
  mkTunnelSocket (self t) (f (_socket t)) (ts_client t) (ts_publishCredential t)
                 (_wsConnection t) (_wsClient t) (connection t) (close_listener t).
Definition set_wsConnection (v : option ConnectionRef) (t : TunnelSocket) : TunnelSocket :=
  mkTunnelSocket (self t) (_socket t) (ts_client t) (ts_publishCredential t)
                 v (_wsClient t) (connection t) (close_listener t).
Definition set_wsClient (f : WsClient -> WsClient) (t : TunnelSocket) : TunnelSocket :=
  mkTunnelSocket (self t) (_socket t) (ts_client t) (ts_publishCredential t)
                 (_wsConnection t) (f (_wsClient t)) (connection t) (close_listener t).
Definition set_connection (v : option Connection) (t : TunnelSocket) : TunnelSocket :=
  mkTunnelSocket (self t) (_socket t) (ts_client t) (ts_publishCredential t)
                 (_wsConnection t) (_wsClient t) v (close_listener t).
Definition set_close_listener (b : bool) (t : TunnelSocket) : TunnelSocket :=
  mkTunnelSocket (self t) (_socket t) (ts_client t) (ts_publishCredential t)
                 (_wsConnection t) (_wsClient t) (connection t) b.

Definition socket_pause (s : Socket) : Socket :=
  mkSocket (remoteAddress s) (remotePort s) true (destroyed s) (socket_listeners s).
Definition socket_resume (s : Socket) : Socket :=
  mkSocket (remoteAddress s) (remotePort s) false (destroyed s) (socket_listeners s).
Definition socket_destroy (s : Socket) : Socket :=
  mkSocket (remoteAddress s) (remotePort s) (paused s) true (socket_listeners s).
Definition socket_on (s : Socket) : Socket :=
  mkSocket (remoteAddress s) (remotePort s) (paused s) (destroyed s) true.

Definition client_on (c : WsClient) : WsClient :=
  mkWsClient true (connect_request c) (aborted c).
Definition client_connect (req : ConnectRequest) (c : WsClient) : WsClient :=
  mkWsClient (client_listeners c) (Some req) (aborted c).
Definition client_abort (c : WsClient) : WsClient :=
  mkWsClient (client_listeners c) (connect_request c) true.

Definition connection_close (c : option Connection) : option Connection :=
  match c with
  | Some c => Some (mkConnection (connection_listeners c) true)
  | None => None
  end.

(** [constructor(socket, client, publishCredential)] *)
Definition new_TunnelSocket (r : SocketRef) (socket : Socket) (client : SiteClient)
           (publishCredential : User) : TunnelSocket :=
  mkTunnelSocket r socket client publishCredential None
                 (mkWsClient false None false) None false.

(** [public dispose(): void] *)
Definition TunnelSocket_dispose : Eff TunnelSocket unit :=
  appendLine "[Proxy Server] socket dispose" ;;
  this <- get ;;
  (match _wsConnection this with
   | Some _ =>
       effect (WsConnectionClose (self this)) ;;
       modify (set_connection (connection_close (connection this))) ;;
       modify (set_wsConnection None)
   | None => ret tt
   end) ;;
  effect (WsClientAbort (self this)) ;;
  modify (set_wsClient client_abort) ;;
  effect (SocketDestroy (self this)) ;;
  modify (set_socket socket_destroy).

(** [this.emit(name, ...)] *)
Definition emit (n : Notification) : Eff TunnelSocket unit :=
  this <- get ;; effect (Emit (self this) n).

(** [public connect(): void]: installs the listeners, pauses the socket and
    starts the WebSocket handshake.  The listener bodies are the [on_...]
    definitions below. *)
Definition TunnelSocket_connect : Eff TunnelSocket unit :=
  appendLine "[Proxy Server] socket init" ;;
  this <- get ;;
  effect (SocketPause (self this)) ;;
  modify (set_socket socket_pause) ;;
  modify (set_socket socket_on) ;;
  modify (set_wsClient client_on) ;;
  let req :=
    mkConnectRequest
      ("wss://" ++ kuduHostName (ts_client this) ++ "/AppServiceTunnel/Tunnel.ashx")
      [("User-Agent", "vscode-azuretools"); ("Cache-Control", "no-cache"); ("Pragma", "no-cache")]
      (publishingUserName (ts_publishCredential this) ++ ":" ++
       publishingPassword (ts_publishCredential this)) in
  effect (WsClientConnect (self this) req) ;;
  modify (set_wsClient (client_connect req)).

(** [this._socket.on('data', ...)] *)
Definition on_socket_data (data : Buffer) : Eff TunnelSocket unit :=
  this <- get ;;
  match _wsConnection this with
  | Some _ => effect (WsConnectionSend (self this) data)
  | None => ret tt
  end.

(** [this._socket.on('close', ...)] *)
Definition on_socket_close : Eff TunnelSocket unit :=
  this <- get ;;
  appendLine ("[Proxy Server] client disconnected " ++ remoteAddress (_socket this)
              ++ ":" ++ show_Z (remotePort (_socket this))) ;;
  TunnelSocket_dispose ;;
  emit NClose.

(** [this._socket.on('error', ...)] *)
Definition on_socket_error (err : Thrown) : Eff TunnelSocket unit :=
  appendLine ("[Proxy Server] socket error: " ++ toString err) ;;
  TunnelSocket_dispose ;;
  emit (NError err).

(** [this._wsClient.on('connect', ...)] *)
Definition on_client_connect : Eff TunnelSocket unit :=
  appendLine "[WebSocket] client connected" ;;
  modify (set_connection (Some (mkConnection false false))) ;;
  modify (set_wsConnection (Some TheConnection)) ;;
  this <- get ;;
  effect (SocketResume (self this)) ;;
  modify (set_socket socket_resume) ;;
  modify (set_connection (Some (mkConnection true false))).

(** [connection.on('close', ...)] *)
Definition on_connection_close : Eff TunnelSocket unit :=
  appendLine "[WebSocket] client closed" ;;
  TunnelSocket_dispose ;;
  emit NClose.

(** [connection.on('error', ...)] *)
Definition on_connection_error (err : Thrown) : Eff TunnelSocket unit :=
  appendLine ("[WebSocket] error: " ++ toString err) ;;
  TunnelSocket_dispose ;;
  emit (NError err).

(** [connection.on('message', ...)] *)
Definition on_connection_message (binaryData : Buffer) : Eff TunnelSocket unit :=
  this <- get ;;
  effect (SocketWrite (self this) binaryData).

(** [this._wsClient.on('connectFailed', ...)] *)
Definition on_client_connectFailed (err : Thrown) : Eff TunnelSocket unit :=
  appendLine ("[WebSocket] connectFailed: " ++ toString err) ;;
  TunnelSocket_dispose ;;
  emit (NError err).

(** The events the two legs can raise on a forwarder. *)
Inductive Event : Type :=
| SocketData (data : Buffer)
| SocketClose
| SocketError (err : Thrown)
| ClientConnect
| ClientConnectFailed (err : Thrown)
| ConnectionClose
| ConnectionError (err : Thrown)
| ConnectionMessage (binaryData : Buffer).

Definition connection_listening (t : TunnelSocket) : bool :=
  match connection t with
  | Some c => connection_listeners c
  | None => false
  end.

(** Is a listener installed for the event? *)
Definition listened (ev : Event) (t : TunnelSocket) : bool :=
  match ev with
  | SocketData _ | SocketClose | SocketError _ => socket_listeners (_socket t)
  | ClientConnect | ClientConnectFailed _ => client_listeners (_wsClient t)
  | ConnectionClose | ConnectionError _ | ConnectionMessage _ => connection_listening t
  end.

Definition listener (ev : Event) : Eff TunnelSocket unit :=
  match ev with
  | SocketData data => on_socket_data data
  | SocketClose => on_socket_close
  | SocketError err => on_socket_error err
  | ClientConnect => on_client_connect
  | ClientConnectFailed err => on_client_connectFailed err
  | ConnectionClose => on_connection_close
  | ConnectionError err => on_connection_error err
  | ConnectionMessage data => on_connection_message data
  end.

(** Delivery of one event: the installed listener runs, an event without a
    listener is lost. *)
Definition deliver (ev : Event) : Eff TunnelSocket unit :=
  this <- get ;;
  if listened ev this then listener ev else ret tt.

(** Delivery of a sequence of events, in order. *)
Fixpoint deliver_all (evs : list Event) : Eff TunnelSocket unit :=
  match evs with
  | [] => ret tt
  | ev :: rest => deliver ev ;; deliver_all rest
  end.

(* ================================================================== *)
(** ** Interface for tunnel GetStatus API *)

(** [enum AppState] *)
Definition STARTED : string := "STARTED".
Definition STARTING : string := "STARTING".
Definition STOPPED : string := "STOPPED".

(** [interface ITunnelStatus].  The value comes out of JSON.parse, so that
    [state] can be any string, not only a member of [AppState]. *)
Record ITunnelStatus := mkTunnelStatus {
  port : Z;
  canReachPort : bool;
  state : string;
  msg : string
}.

(* ================================================================== *)
(** ** class TunnelProxy *)

(** The [net.Server] of the proxy. *)
Record Server := mkServer {
  server_listeners : bool;                (* the listeners of setupTunnelServer *)
  listen_request : option ListenOptions;  (* listen(...) was called with *)
  listening : bool;                       (* bound: 'listening' was raised, close() not called *)
  unrefd : bool                           (* unref() was called *)
}.

Record TunnelProxy := mkTunnelProxy {
  _port : Z;
  _client : SiteClient;
  _publishCredential : User;
  _server : Server;
  _openSockets : list SocketRef;
  _isSsh : bool
}.

(** The proxy object, the clock read by Date.now() and the forwarders created
    so far.  [_openSockets] holds references into [heap]: a forwarder spliced
    out of the registry is still an object that receives events. *)
Record World := mkWorld {
  now : N;
  this : TunnelProxy;
  heap : list TunnelSocket
}.

Definition set_server (f : Server -> Server) (w : World) : World :=
  let p := this w in
  mkWorld (now w)
          (mkTunnelProxy (_port p) (_client p) (_publishCredential p) (f (_server p))
                         (_openSockets p) (_isSsh p))
          (heap w).
Definition set_openSockets (f : list SocketRef -> list SocketRef) (w : World) : World :=
  let p := this w in
  mkWorld (now w)
          (mkTunnelProxy (_port p) (_client p) (_publishCredential p) (_server p)
                         (f (_openSockets p)) (_isSsh p))
          (heap w).
Definition set_heap (f : list TunnelSocket -> list TunnelSocket) (w : World) : World :=
  mkWorld (now w) (this w) (f (heap w)).
Definition advance (ms : N) (w : World) : World :=
  mkWorld (now w + ms) (this w) (heap w).

Definition server_on (s : Server) : Server :=
  mkServer true (listen_request s) (listening s) (unrefd s).
Definition server_listen (opts : ListenOptions) (s : Server) : Server :=
  mkServer (server_listeners s) (Some opts) (listening s) (unrefd s).
Definition server_bound (s : Server) : Server :=
  mkServer (server_listeners s) (listen_request s) true (unrefd s).
Definition server_close (s : Server) : Server :=
  mkServer (server_listeners s) None false (unrefd s).
Definition server_unref (s : Server) : Server :=
  mkServer (server_listeners s) (listen_request s) (listening s) true.

(** [createServer()] *)
Definition createServer : Server := mkServer false None false false.

(** [constructor(port, client, publishCredential, isSsh = false)] *)
Definition new_TunnelProxy (port : Z) (client : SiteClient) (publishCredential : User)
           (isSsh : bool) : TunnelProxy :=
  mkTunnelProxy port client publishCredential createServer [] isSsh.

(** Replaces the element at a position of a list. *)
Fixpoint update {A} (i : nat) (x : A) (l : list A) : list A :=
  match l, i with
  | [], _ => []
  | _ :: rest, O => x :: rest
  | y :: rest, S i' => y :: update i' x rest
  end.

(** Runs a method of the forwarder behind a reference. *)
Definition with_object (r : SocketRef) (m : Eff TunnelSocket unit) : Eff World unit :=
  fun w =>
    match nth_error (heap w) r with
    | Some t => let '(c, t', out) := m t in (c, set_heap (update r t') w, out)
    | None => (Returned tt, w, [])
    end.

(** [array.forEach(f)] *)
Fixpoint forEach {S A} (l : list A) (f : A -> Eff S unit) : Eff S unit :=
  match l with
  | [] => ret tt
  | x :: rest => f x ;; forEach rest f
  end.

(** [public dispose(): void] *)
Definition TunnelProxy_dispose : Eff World unit :=
  w <- get ;;
  forEach (_openSockets (this w))
          (fun tunnelSocket => with_object tunnelSocket TunnelSocket_dispose) ;;
  effect ServerClose ;;
  modify (set_server server_close) ;;
  effect ServerUnref ;;
  modify (set_server server_unref).

(** An [await]: the clock moves on while the function is suspended, and the
    owner of the proxy may call dispose() in the meantime. *)
Definition await (ms : N) (owner_disposes : bool) : Eff World unit :=
  modify (advance ms) ;;
  if owner_disposes then TunnelProxy_dispose else ret tt.

(** Answer to the status request: the request rejects, or it delivers a body
    on which JSON.parse throws, or a body that JSON.parse decodes. *)
Inductive StatusResponse : Type :=
| RequestRejected (err : ForeignError)
| BodyMalformed (responseBody : string) (err : ForeignError)
| BodyDecoded (responseBody : string) (tunnelStatus : ITunnelStatus).

(** Answer to the ping: a response with whatever status code ([simple: false]
    lets every status code through), or a rejected request. *)
Inductive PingResponse : Type :=
| PingResponded (statusCode : Z)
| PingRejected (err : ForeignError).

(** What the outside world does during one turn of the polling loop. *)
Record PollTurn := mkPollTurn {
  status_response : StatusResponse;
  status_ms : N;                 (* duration of the status request *)
  dispose_during_status : bool;
  ping_response : PingResponse;
  ping_ms : N;                   (* duration of the ping *)
  dispose_during_ping : bool;
  delay_late : N;                (* how long after the interval the timer fires *)
  dispose_during_delay : bool
}.

(** Modelled from the spec: [delay] of utils/delay is not among the sources.
    Section 4.2 has the poller sleep for the interval and then continue, the
    sleep being a suspension point.  The timer resumes the function [late]
    milliseconds after the interval has passed. *)
Definition delay (ms late : N) (owner_disposes : bool) : Eff World unit :=
  effect (Delay ms) ;;
  await (ms + late) owner_disposes.

Section WithHost.
Context {H : Host}.

(** [private async startupApp(): Promise<void>] *)
Definition startupApp (t : PollTurn) : Eff World unit :=
  appendLine "[Tunnel] Pinging app default url..." ;;
  w <- get ;;
  effect (GetPing (defaultHostUrl (_client (this w)))) ;;
  await (ping_ms t) (dispose_during_ping t) ;;
  match ping_response t with
  | PingResponded statusCode =>
      appendLine ("[Tunnel] Ping responded with status code: " ++ show_Z statusCode)
  | PingRejected err => throw (Foreign err)
  end.

(** [private async checkTunnelStatus(): Promise<void>] *)
Definition checkTunnelStatus (t : PollTurn) : Eff World unit :=
  w <- get ;;
  let uri := "https://" ++ kuduHostName (_client (this w))
             ++ "/AppServiceTunnel/Tunnel.ashx?GetStatus&GetStatusAPIVer=2" in
  tunnelStatus <-
    tryCatch
      (effect (GetStatus uri "vscode-azuretools"
                         (publishingUserName (_publishCredential (this w)))
                         (publishingPassword (_publishCredential (this w)))) ;;
       await (status_ms t) (dispose_during_status t) ;;
       match status_response t with
       | RequestRejected err => throw (Foreign err)
       | BodyMalformed responseBody err =>
           appendLine ("[Tunnel] Checking status, body: " ++ responseBody) ;;
           throw (Foreign err)
       | BodyDecoded responseBody tunnelStatus =>
           appendLine ("[Tunnel] Checking status, body: " ++ responseBody) ;;
           ret tunnelStatus
       end)
      (fun error =>
         let parsedError := parseError error in
         appendLine ("[Tunnel] Checking status, error: " ++ message parsedError) ;;
         throw (JsError (localize "tunnelStatusError" "Error getting tunnel status: {0}"
                                  [errorType parsedError]))) ;;
  w <- get ;;
  if state tunnelStatus =? STARTED then
    if ((port tunnelStatus =? 2222)%Z && negb (_isSsh (this w)))
       || (negb (port tunnelStatus =? 2222)%Z && _isSsh (this w)) then
      throw RetryableTunnelStatusError
    else if canReachPort tunnelStatus then
      ret tt
    else
      throw (JsError (localize "tunnelUnreachable" "App is started, but port is unreachable" []))
  else if state tunnelStatus =? STARTING then
    throw RetryableTunnelStatusError
  else if state tunnelStatus =? STOPPED then
    startupApp t ;;
    throw RetryableTunnelStatusError
  else
    throw (JsError (localize "tunnelStatusError" "Unexpected app state: {0}"
                             [state tunnelStatus])).

Definition timeoutSeconds : N := 240.
Definition timeoutMs : N := timeoutSeconds * 1000.
Definition pollingIntervalMs : N := 5000.

(** What one turn of the loop body decides. *)
Inductive Turn : Type :=
| Resolve
| Reject (error : Thrown)
| Retry.

(** The [while] loop of checkTunnelStatusWithRetry.  [fuel] bounds the number
    of turns that are unfolded; turn [i] meets [env i]. *)
Fixpoint retryLoop (fuel : nat) (env : nat -> PollTurn) (i : nat) (start : N)
  : Eff World unit :=
  match fuel with
  | O => pending
  | S fuel' =>
      w <- get ;;
      if (now w <? start + timeoutMs)%N then
        turn <- tryCatch
                  (checkTunnelStatus (env i) ;; ret Resolve)
                  (fun error =>
                     if negb (instanceof_Retryable error) then
                       ret (Reject (JsError
                              (localize "tunnelFailed"
                                        "Unable to establish connection to application: {0}"
                                        [message (parseError error)])))
                     else ret Retry) ;;
        match turn with
        | Resolve => ret tt
        | Reject error => throw error
        | Retry =>
            delay pollingIntervalMs (delay_late (env i)) (dispose_during_delay (env i)) ;;
            retryLoop fuel' env (S i) start
        end
      else
        throw (JsError (localize "tunnelTimedOut"
                                 "Unable to establish connection to application: Timed out" []))
  end.

(** [private async checkTunnelStatusWithRetry(): Promise<void>]: the promise
    resolves when the computation returns and rejects when it throws. *)
Definition checkTunnelStatusWithRetry (fuel : nat) (env : nat -> PollTurn) : Eff World unit :=
  w <- get ;;
  let start := now w in
  retryLoop fuel env 0 start.

End WithHost.

(** [array.indexOf(x)], [None] standing for -1. *)
Fixpoint indexOf (x : SocketRef) (l : list SocketRef) : option nat :=
  match l with
  | [] => None
  | y :: rest =>
      if Nat.eqb y x then Some O
      else match indexOf x rest with
           | Some i => Some (S i)
           | None => None
           end
  end.

(** [array.splice(index, 1)] *)
Fixpoint splice1 {A} (index : nat) (l : list A) : list A :=
  match l, index with
  | [], _ => []
  | _ :: rest, O => rest
  | y :: rest, S i => y :: splice1 i rest
  end.

(** The listener of the proxy on a forwarder: [tunnelSocket.on('close', ...)] *)
Definition on_tunnelSocket_close (tunnelSocket : SocketRef) : Eff World unit :=
  w <- get ;;
  match indexOf tunnelSocket (_openSockets (this w)) with
  | Some index =>
      modify (set_openSockets (splice1 index)) ;;
      w <- get ;;
      appendLine ("[Proxy Server] client closed, connection count: "
                  ++ show_nat (length (_openSockets (this w))))
  | None => ret tt
  end.

(** [this._server.on('connection', ...)] *)
Definition on_server_connection (socket : Socket) : Eff World unit :=
  w <- get ;;
  let tunnelSocket := length (heap w) in
  modify (set_heap (fun h => (h ++ [new_TunnelSocket tunnelSocket socket (_client (this w))
                                                     (_publishCredential (this w))])%list)) ;;
  modify (set_openSockets (fun l => (l ++ [tunnelSocket])%list)) ;;
  with_object tunnelSocket (modify (set_close_listener true)) ;;
  with_object tunnelSocket TunnelSocket_connect ;;
  w <- get ;;
  appendLine ("[Proxy Server] client connected " ++ remoteAddress socket ++ ":"
              ++ show_Z (remotePort socket) ++ ", connection count: "
              ++ show_nat (length (_openSockets (this w)))).

(** [this._server.on('listening', ...)]; resolve() settles the promise of
    setupTunnelServer. *)
Definition on_server_listening : Eff World unit :=
  appendLine "[Proxy Server] start listening".

(** [this._server.on('error', ...)]; reject(err) settles the promise of
    setupTunnelServer. *)
Definition on_server_error (err : ForeignError) : Eff World unit :=
  appendLine ("[Proxy Server] server error: " ++ toString (Foreign err)) ;;
  TunnelProxy_dispose.

(** How the server answers listen(): it raises 'listening' or 'error'. *)
Inductive ListenOutcome : Type :=
| Listening
| ListenError (err : ForeignError).

(** [private async setupTunnelServer(): Promise<void>]: installs the
    listeners and calls listen(); the promise settles with the first
    'listening' or 'error' event of the server. *)
Definition setupTunnelServer (outcome : ListenOutcome) : Eff World unit :=
  modify (set_server server_on) ;;
  w <- get ;;
  let opts := mkListenOptions "localhost" (_port (this w)) 1 in
  effect (ServerListen opts) ;;
  modify (set_server (server_listen opts)) ;;
  match outcome with
  | Listening =>
      modify (set_server server_bound) ;;
      on_server_listening
  | ListenError err =>
      on_server_error err ;;
      throw (Foreign err)
  end.

(** [public async startProxy(): Promise<void>] *)
Definition startProxy {H : Host} (fuel : nat) (env : nat -> PollTurn)
           (outcome : ListenOutcome) : Eff World unit :=
  checkTunnelStatusWithRetry fuel env ;;
  setupTunnelServer outcome.

(** Is the effect the notification 'close' of a forwarder? *)
Definition is_emit_close (e : Effect) : bool :=
  match e with
  | Emit _ NClose => true
  | _ => false
  end.

(** An event of one of the legs of a forwarder, seen from the proxy: the
    listener of the forwarder runs, and each 'close' it emits runs the
    listener of the proxy (emit calls the listeners synchronously). *)
Definition deliver_to (r : SocketRef) (ev : Event) : Eff World unit :=
  w <- get ;;
  match nth_error (heap w) r with
  | Some t =>
      fun w0 =>
        let '(c, w1, out1) := with_object r (deliver ev) w0 in
        if existsb is_emit_close out1 && close_listener t then
          let '(c2, w2, out2) := on_tunnelSocket_close r w1 in
          (c2, w2, (out1 ++ out2)%list)
        else (c, w1, out1)
  | None => ret tt
  end.

(** A connection arriving at the server: only a bound server with the
    listener installed accepts it. *)
Definition accept (socket : Socket) : Eff World unit :=
  w <- get ;;
  if listening (_server (this w)) && server_listeners (_server (this w))
  then on_server_connection socket
  else ret tt.

(* ================================================================== *)
(** ** The two legs of a forwarder as event sources

    Both legs are objects of the platform: a net.Socket raises 'close' once,
    and nothing after it; a websocket client settles its handshake once, with
    'connect' or 'connectFailed'; the connection raises events only after
    'connect', raises 'close' once, and nothing after it.  [plausible] checks
    a sequence of events against these rules. *)






(* ================================================================== *)
(** ** Observations on effect lists *)

(** The terminal notifications ('close' or 'error') among the effects. *)
Fixpoint notifications (out : list Effect) : list Notification :=
  match out with
  | [] => []
  | Emit _ n :: rest => n :: notifications rest
  | _ :: rest => notifications rest
  end.

Definition is_close (n : Notification) : bool :=
  match n with NClose => true | NError _ => false end.

(** Number of 'close' notifications among the effects. *)
Definition close_count (out : list Effect) : nat :=
  length (filter is_close (notifications out)).

Definition is_poll (e : Effect) : bool :=
  match e with GetStatus _ _ _ _ => true | _ => false end.
Definition is_ping (e : Effect) : bool :=
  match e with GetPing _ => true | _ => false end.
Definition is_delay (e : Effect) : bool :=
  match e with Delay _ => true | _ => false end.
Definition is_server_close (e : Effect) : bool :=
  match e with ServerClose => true | _ => false end.
Definition is_listen (e : Effect) : bool :=
  match e with ServerListen _ => true | _ => false end.

(** Number of status polls among the effects. *)
Definition polls (out : list Effect) : nat := length (filter is_poll out).

(** The effects that follow the first effect satisfying [p]. *)
Fixpoint after (p : Effect -> bool) (out : list Effect) : list Effect :=
  match out with
  | [] => []
  | e :: rest => if p e then rest else after p rest
  end.

(* ================================================================== *)
(** ** Notions used in the statements *)

(** The three ways a status check can end for the polling loop. *)
Inductive Classification : Type :=
| Ready
| Retryable
| Fatal (error : Thrown).

Definition classify (c : Completion unit) : option Classification :=
  match c with
  | Returned _ => Some Ready
  | Threw error => if instanceof_Retryable error then Some Retryable else Some (Fatal error)
  | Pending => None
  end.

(** Both legs of the forwarder are torn down. *)
Definition is_disposed (t : TunnelSocket) : bool :=
  destroyed (_socket t) && aborted (_wsClient t)
  && match _wsConnection t with None => true | Some _ => false end.

(** The notification a terminal event leads to. *)
Definition terminal (ev : Event) : option Notification :=
  match ev with
  | SocketClose | ConnectionClose => Some NClose
  | SocketError err | ConnectionError err | ClientConnectFailed err => Some (NError err)
  | SocketData _ | ClientConnect | ConnectionMessage _ => None
  end.


(** All listeners of the forwarder are installed: connect() was called and
    the WebSocket handshake has succeeded. *)
Definition established (t : TunnelSocket) : bool :=
  socket_listeners (_socket t) && client_listeners (_wsClient t) && connection_listening t.

(** The requests and timers of the polling among the effects. *)
Definition is_polling (e : Effect) : bool := is_poll e || is_ping e || is_delay e.
Definition polling_effects (out : list Effect) : list Effect := filter is_polling out.

(** The same turn without any dispose() call of the owner. *)
Definition undisturbed (t : PollTurn) : PollTurn :=
  mkPollTurn (status_response t) (status_ms t) false
             (ping_response t) (ping_ms t) false
             (delay_late t) false.

(** Does the text occur in the string? *)
Definition occurs_in (text s : string) : bool :=
  match index 0 text s with
  | Some _ => true
  | None => false
  end.

(** The heap after dispose() of the forwarder behind a reference, and after
    dispose() of every forwarder of a registry. *)
Definition dispose_at (r : SocketRef) (h : list TunnelSocket) : list TunnelSocket :=
  match nth_error h r with
  | Some t => update r (final (TunnelSocket_dispose t)) h
  | None => h
  end.

Definition dispose_heap (refs : list SocketRef) (h : list TunnelSocket) : list TunnelSocket :=
  fold_left (fun h r => dispose_at r h) refs h.

(** The calls made by dispose() of every forwarder of a registry. *)
Fixpoint dispose_out (refs : list SocketRef) (h : list TunnelSocket) : list Effect :=
  match refs with
  | [] => []
  | r :: rest =>
      (match nth_error h r with
       | Some t => effects (TunnelSocket_dispose t)
       | None => []
       end ++ dispose_out rest (dispose_at r h))%list
  end.

(** The world after dispose() of the proxy. *)
Definition disposed_world (w : World) : World :=
  set_server server_unref
    (set_server server_close (set_heap (dispose_heap (_openSockets (this w))) w)).

(** The calls a teardown consists of. *)
Definition is_teardown (e : Effect) : bool :=
  match e with
  | AppendLine _ | WsConnectionClose _ | WsClientAbort _ | SocketDestroy _
  | ServerClose | ServerUnref => true
  | _ => false
  end.

Definition is_connection_close (e : Effect) : bool :=
  match e with WsConnectionClose _ => true | _ => false end.

(** The world after an [await]. *)
Definition suspended (ms : N) (owner_disposes : bool) (w : World) : World :=
  if owner_disposes then disposed_world (advance ms w) else advance ms w.

(** Does the status check of the turn reach the ping of startupApp? *)
Definition pinged (t : PollTurn) : bool :=
  match status_response t with
  | BodyDecoded _ tunnelStatus => state tunnelStatus =? STOPPED
  | _ => false
  end.

(** The world after the status check of a turn. *)
Definition checked_world (t : PollTurn) (w : World) : World :=
  let w1 := suspended (status_ms t) (dispose_during_status t) w in
  if pinged t then suspended (ping_ms t) (dispose_during_ping t) w1 else w1.

(** The requests of the status check of a turn. *)
Definition check_requests (p : TunnelProxy) (t : PollTurn) : list Effect :=
  GetStatus ("https://" ++ kuduHostName (_client p)
             ++ "/AppServiceTunnel/Tunnel.ashx?GetStatus&GetStatusAPIVer=2")
            "vscode-azuretools"
            (publishingUserName (_publishCredential p))
            (publishingPassword (_publishCredential p))
  :: (if pinged t then [GetPing (defaultHostUrl (_client p))] else []).

(** Calls that are neither a listen() of the server nor a notification. *)
Definition is_quiet (e : Effect) : bool := is_teardown e || is_polling e.

(** What the polling reads of the proxy. *)
Definition settings (w : World) : Z * SiteClient * User * bool :=
  (_port (this w), _client (this w), _publishCredential (this w), _isSsh (this w)).

(** The server is not bound, was not asked to listen, has no listeners, and
    no forwarder is registered. *)
Definition unbound (w : World) : Prop :=
  listening (_server (this w)) = false /\
  listen_request (_server (this w)) = None /\
  server_listeners (_server (this w)) = false /\
  _openSockets (this w) = [].

(** How the status check of a turn completes, read off the answers of the
    turn; [checkTunnelStatus_run] proves that checkTunnelStatus completes so. *)
Definition status_outcome {H : Host} (isSsh : bool) (t : PollTurn) : Completion unit :=
  match status_response t with
  | RequestRejected err | BodyMalformed _ err =>
      Threw (JsError (localize "tunnelStatusError" "Error getting tunnel status: {0}"
                               [errorType (parseError (Foreign err))]))
  | BodyDecoded _ tunnelStatus =>
      if state tunnelStatus =? STARTED then
        if ((port tunnelStatus =? 2222)%Z && negb isSsh)
           || (negb (port tunnelStatus =? 2222)%Z && isSsh) then
          Threw RetryableTunnelStatusError
        else if canReachPort tunnelStatus then Returned tt
        else Threw (JsError (localize "tunnelUnreachable"
                                      "App is started, but port is unreachable" []))
      else if state tunnelStatus =? STARTING then Threw RetryableTunnelStatusError
      else if state tunnelStatus =? STOPPED then
        match ping_response t with
        | PingResponded _ => Threw RetryableTunnelStatusError
        | PingRejected err => Threw (Foreign err)
        end
      else Threw (JsError (localize "tunnelStatusError" "Unexpected app state: {0}"
                                    [state tunnelStatus]))
  end.

(** The time from the head of the loop in one turn to the head of the loop
    in the next turn, and the time from the start to the head of the loop in
    turn [k], when no turn before [k] has left the loop. *)
Definition turn_ms (t : PollTurn) : N :=
  status_ms t + (if pinged t then ping_ms t else 0) + pollingIntervalMs + delay_late t.

Fixpoint elapsed (env : nat -> PollTurn) (k : nat) : N :=
  match k with
  | O => 0
  | S k' => elapsed env k' + turn_ms (env k')
  end.

(** The errors the promise of checkTunnelStatusWithRetry rejects with. *)
Definition tunnelTimedOut {H : Host} : Thrown :=
  JsError (localize "tunnelTimedOut"
                    "Unable to establish connection to application: Timed out" []).

Definition tunnelFailed {H : Host} (error : Thrown) : Thrown :=
  JsError (localize "tunnelFailed" "Unable to establish connection to application: {0}"
                    [message (parseError error)]).

Definition delays (out : list Effect) : nat := length (filter is_delay out).

(** [reaches env start w0 i w]: the loop entered in world [w0] arrives at its
    head for turn [i] in world [w], every turn before having asked for a
    retry before the deadline. *)
Inductive reaches {H : Host} (env : nat -> PollTurn) (start : N) (w0 : World)
  : nat -> World -> Prop :=
| reaches_start : reaches env start w0 0 w0
| reaches_retry i w :
    reaches env start w0 i w ->
    (now w <? start + timeoutMs)%N = true ->
    classify (completion (checkTunnelStatus (env i) w)) = Some Retryable ->
    reaches env start w0 (S i)
            (final (delay pollingIntervalMs (delay_late (env i))
                          (dispose_during_delay (env i))
                          (final (checkTunnelStatus (env i) w)))).

(** The answers of a turn that the spec lists as Fatal: the request or the
    decoding fails, the app is started on the expected class of port but the
    port is unreachable, or the state is none of the three known ones. *)
Definition fatal_answer (isSsh : bool) (t : PollTurn) : Prop :=
  match status_response t with
  | RequestRejected _ | BodyMalformed _ _ => True
  | BodyDecoded _ tunnelStatus =>
      (state tunnelStatus = STARTED /\ (port tunnelStatus =? 2222)%Z = isSsh
       /\ canReachPort tunnelStatus = false)
      \/ (state tunnelStatus <> STARTED /\ state tunnelStatus <> STARTING
          /\ state tunnelStatus <> STOPPED)
  end.

(** Sample values to run the definitions on. *)
Definition sample_client : SiteClient :=
  mkSiteClient "app.scm.azurewebsites.net" "https://app.azurewebsites.net".
Definition sample_credential : User := mkUser "$app" "secret".
Definition sample_socket : Socket := mkSocket "127.0.0.1" 50123 false false false.
Definition sample_world (isSsh : bool) : World :=
  mkWorld 1000 (new_TunnelProxy 2222 sample_client sample_credential isSsh) [].
Definition sample_status (st : string) (p : Z) (reach : bool) : ITunnelStatus :=
  mkTunnelStatus p reach st "".
Definition sample_turn (r : StatusResponse) : PollTurn :=
  mkPollTurn r 0 false (PingResponded 200) 0 false 0 false.

(** A refused connection, as request-promise reports it. *)
Definition connection_refused : ForeignError :=
  mkForeignError "RequestError" "connect ECONNREFUSED 10.0.0.1:443".

(** The remote keeps answering STARTING at once, timers fire on time. *)
Definition starting_env : nat -> PollTurn :=
  fun _ => sample_turn (BodyDecoded "" (sample_status STARTING 2222 true)).

(** The same with status requests that take five seconds each. *)
Definition slow_starting_env : nat -> PollTurn :=
  fun _ => mkPollTurn (BodyDecoded "" (sample_status STARTING 2222 true))
                      5000 false (PingResponded 200) 0 false 0 false.

(** The same as [starting_env], the owner calling dispose() during the first
    delay. *)
Definition disposed_starting_env : nat -> PollTurn :=
  fun i => mkPollTurn (BodyDecoded "" (sample_status STARTING 2222 true))
                      0 false (PingResponded 200) 0 false 0 (Nat.eqb i 0).

(** A listening proxy with two clients connected, the WebSocket handshake of
    the first one completed. *)
Definition listening_world : World :=
  final (setupTunnelServer Listening (sample_world false)).

Definition two_clients_world : World :=
  final ((accept sample_socket ;;
          accept (mkSocket "127.0.0.1" 50124 false false false) ;;
          deliver_to 0 ClientConnect) listening_world).

(** The forwarder of [sample_socket] after connect(). *)
Definition connecting_forwarder : TunnelSocket :=
  final (TunnelSocket_connect (new_TunnelSocket 0 sample_socket sample_client sample_credential)).

(** The same forwarder after the WebSocket handshake has succeeded. *)
Definition established_forwarder : TunnelSocket :=
  final (deliver ClientConnect connecting_forwarder).

(* ================================================================== *)
(** ** Traffic of a forwarder *)

(** The chunks sent on the WebSocket connection, and the chunks written to
    the local socket, in the order of the calls. *)
Fixpoint sends (out : list Effect) : list Buffer :=
  match out with
  | [] => []
  | WsConnectionSend _ data :: rest => data :: sends rest
  | _ :: rest => sends rest
  end.

Fixpoint writes (out : list Effect) : list Buffer :=
  match out with
  | [] => []
  | SocketWrite _ data :: rest => data :: writes rest
  | _ :: rest => writes rest
  end.

(** The events that carry data: 'data' of the socket, 'message' of the
    connection. *)
Definition is_traffic (ev : Event) : bool :=
  match ev with
  | SocketData _ | ConnectionMessage _ => true
  | _ => false
  end.

(** The one call a data event is forwarded with. *)
Definition forwarded (r : SocketRef) (ev : Event) : list Effect :=
  match ev with
  | SocketData data => [WsConnectionSend r data]
  | ConnectionMessage binaryData => [SocketWrite r binaryData]
  | _ => []
  end.

Definition is_client_connect (ev : Event) : bool :=
  match ev with ClientConnect => true | _ => false end.

Definition is_resume (e : Effect) : bool :=
  match e with SocketResume _ => true | _ => false end.

(** Number of close() calls on a connection among the effects, and number of
    'connect' events among the events. *)
Definition connection_closes (out : list Effect) : nat :=
  length (filter is_connection_close out).

Definition connects (evs : list Event) : nat :=
  length (filter is_client_connect evs).

(** Whether the field [_wsConnection] is set, as a number. *)
Definition open_connections (t : TunnelSocket) : nat :=
  match _wsConnection t with Some _ => 1 | None => 0 end.

(* ================================================================== *)
(** ** The proxy as a reactive system *)

(** What can happen to a proxy once startProxy() has run: a client connects,
    a leg of a forwarder raises an event, the server raises 'error', the
    owner calls dispose(). *)
Inductive ProxyEvent : Type :=
| ClientArrives (socket : Socket)
| LegEvent (r : SocketRef) (ev : Event)
| ServerFails (err : ForeignError)
| OwnerDisposes.

Definition proxy_step (e : ProxyEvent) : Eff World unit :=
  match e with
  | ClientArrives socket => accept socket
  | LegEvent r ev => deliver_to r ev
  | ServerFails err =>
      w <- get ;;
      if server_listeners (_server (this w)) then on_server_error err else ret tt
  | OwnerDisposes => TunnelProxy_dispose
  end.

Fixpoint proxy_run (es : list ProxyEvent) : Eff World unit :=
  match es with
  | [] => ret tt
  | e :: rest => proxy_step e ;; proxy_run rest
  end.

(** The forwarder the 'connection' listener creates for a socket: subscribed
    to by the proxy, then connected. *)
Definition accepted_forwarder (r : SocketRef) (socket : Socket) (p : TunnelProxy)
  : TunnelSocket :=
  final (TunnelSocket_connect
           (set_close_listener true
              (new_TunnelSocket r socket (_client p) (_publishCredential p)))).

(** A listening proxy whose one forwarder has closed and left the registry. *)
Definition closed_client_world : World :=
  mkWorld 1000
          (mkTunnelProxy 2222 sample_client sample_credential
                         (mkServer true (Some (mkListenOptions "localhost" 2222 1)) true false)
                         [] false)
          [final (TunnelSocket_dispose connecting_forwarder)].

(** The registry is well formed: its references are distinct and point into
    the heap, and every forwarder of the heap knows its own reference. *)
Definition registry_ok (w : World) : Prop :=
  NoDup (_openSockets (this w)) /\
  (forall r, In r (_openSockets (this w)) -> r < length (heap w)) /\
  (forall r t, nth_error (heap w) r = Some t -> self t = r).

(* ================================================================== *)
(** ** Requests of the polling *)

(** The requests and the timer of one turn that asks for a retry, and those
    of the first [k] turns. *)
Definition turn_requests (p : TunnelProxy) (t : PollTurn) : list Effect :=
  (check_requests p t ++ [Delay pollingIntervalMs])%list.

Fixpoint prefix_requests (p : TunnelProxy) (env : nat -> PollTurn) (k : nat) : list Effect :=
  match k with
  | O => []
  | S k' => (prefix_requests p env k' ++ turn_requests p (env k'))%list
  end.

(** The status request of a proxy. *)
Definition status_request (p : TunnelProxy) : Effect :=
  GetStatus ("https://" ++ kuduHostName (_client p)
             ++ "/AppServiceTunnel/Tunnel.ashx?GetStatus&GetStatusAPIVer=2")
            "vscode-azuretools"
            (publishingUserName (_publishCredential p))
            (publishingPassword (_publishCredential p)).

(** The remote answers STOPPED twice, then STARTING, then STARTED on the port
    of the application. *)
Definition waking_env : nat -> PollTurn :=
  fun i =>
    sample_turn (BodyDecoded ""
      (match i with
       | 0 | 1 => sample_status STOPPED 2222 true
       | 2 => sample_status STARTING 2222 true
       | _ => sample_status STARTED 8080 true
       end)).

(* ================================================================== *)
(** ** treeDataProvider/AzExtTreeDataProvider.ts: isAncestor *)

(** An [AzExtTreeItem], as far as [isAncestor] reads it: its [fullId], and
    what [isAzExtParentTreeItem] (./InternalInterfaces, not among the
    sources) answers for it. *)
Record AzExtTreeItem := mkTreeItem {
  fullId : string;
  isAzExtParentTreeItem : bool
}.

(** [function isAncestor(treeItem, fullId): boolean] *)
Definition isAncestor (treeItem : AzExtTreeItem) (id : string) : bool :=
  prefix (fullId treeItem ++ "/") id && isAzExtParentTreeItem treeItem.

(* ================================================================== *)
(** ** The monad *)

Lemma run_eta {S A} (r : Completion A * S * list Effect) :
  r = (completion r, final r, effects r).
Proof. destruct r as [[c s] o]. reflexivity. Qed.

Lemma completion_mk {S A} (c : Completion A) (s : S) o : completion (c, s, o) = c.
Proof. reflexivity. Qed.
Lemma final_mk {S A} (c : Completion A) (s : S) o : final (c, s, o) = s.
Proof. reflexivity. Qed.
Lemma effects_mk {S A} (c : Completion A) (s : S) o : effects (c, s, o) = o.
Proof. reflexivity. Qed.

Ltac project := rewrite ?completion_mk, ?final_mk, ?effects_mk.

(** Unfolds the operations of the monad and reduces what they expose. *)
Ltac eff := cbv [bind get modify effect appendLine throw ret pending tryCatch]; cbv beta iota zeta.

Lemma bind_returned {S A B} (m : Eff S A) (k : A -> Eff S B) s a :
  completion (m s) = Returned a ->
  bind m k s = (completion (k a (final (m s))), final (k a (final (m s))),
                (effects (m s) ++ effects (k a (final (m s))))%list).
Proof.
  unfold bind, completion, final, effects.
  destruct (m s) as [[c s1] o1]; cbn. intros ->.
  destruct (k a s1) as [[c2 s2] o2]. reflexivity.
Qed.

Lemma bind_threw {S A B} (m : Eff S A) (k : A -> Eff S B) s e :
  completion (m s) = Threw e ->
  bind m k s = (Threw e, final (m s), effects (m s)).
Proof.
  unfold bind, completion, final, effects.
  destruct (m s) as [[c s1] o1]; cbn. intros ->. reflexivity.
Qed.

(* ================================================================== *)
(** ** TunnelSocket *)

Lemma dispose_returns t : completion (TunnelSocket_dispose t) = Returned tt.
Proof. destruct t as [r sk cl cr [[]|] wc cn ls]; reflexivity. Qed.

Lemma dispose_disposes t : is_disposed (final (TunnelSocket_dispose t)) = true.
Proof. destruct t as [r sk cl cr [[]|] wc cn ls]; reflexivity. Qed.

Lemma dispose_notifies_nothing t : notifications (effects (TunnelSocket_dispose t)) = [].
Proof. destruct t as [r sk cl cr [[]|] wc cn ls]; reflexivity. Qed.

(** dispose() on a disposed forwarder changes nothing. *)
Lemma dispose_again t :
  is_disposed t = true -> final (TunnelSocket_dispose t) = t.
Proof.
  destruct t as [r [ra rp pa de sl] cl cr [[]|] [l q ab] cn ls];
    unfold is_disposed; cbn; intros Hd.
  - rewrite andb_false_r in Hd. discriminate.
  - apply andb_prop in Hd as [Hd _]. apply andb_prop in Hd as [-> ->]. reflexivity.
Qed.

Lemma dispose_idempotent t :
  final (TunnelSocket_dispose (final (TunnelSocket_dispose t))) = final (TunnelSocket_dispose t).
Proof. apply dispose_again, dispose_disposes. Qed.



(** The listener of a terminal event disposes the forwarder and then emits
    the one notification of the event. *)
Lemma terminal_listener ev n t :
  terminal ev = Some n ->
  completion (listener ev t) = Returned tt /\
  final (listener ev t) = final (TunnelSocket_dispose t) /\
  notifications (effects (listener ev t)) = [n] /\
  last (effects (listener ev t)) (AppendLine "") = Emit (self t) n.
Proof.
  destruct ev; cbn; intros Hn; inversion Hn; subst;
    destruct t as [r sk cl cr [[]|] wc cn ls]; repeat split; reflexivity.
Qed.


Lemma deliver_listened ev t :
  listened ev t = true -> deliver ev t = listener ev t.
Proof.
  intros Hl. unfold deliver, bind, get. rewrite Hl.
  destruct (listener ev t) as [[c s] o]. reflexivity.
Qed.

Lemma established_listened ev t : established t = true -> listened ev t = true.
Proof.
  unfold established. intros Hs.
  apply andb_prop in Hs as [Hs Hc]. apply andb_prop in Hs as [Hs Hw].
  destruct ev; assumption.
Qed.



Lemma deliver_all_cons ev rest t :
  completion (deliver ev t) = Returned tt ->
  deliver_all (ev :: rest) t =
  (completion (deliver_all rest (final (deliver ev t))),
   final (deliver_all rest (final (deliver ev t))),
   (effects (deliver ev t) ++ effects (deliver_all rest (final (deliver ev t))))%list).
Proof.
  intros Hc. exact (bind_returned (deliver ev) (fun _ => deliver_all rest) t tt Hc).
Qed.



(** ** C1 *)




(** The proxy lives with the repetition: its listener removes the forwarder
    from the registry at the first 'close' and finds nothing to remove at
    the second one. *)
Example second_close_finds_nothing_to_remove :
  let r1 := deliver_to 0 SocketClose two_clients_world in
  let r2 := deliver_to 0 ConnectionClose (final r1) in
  _openSockets (this two_clients_world) = [0; 1] /\
  close_count (effects r1) = 1 /\ _openSockets (this (final r1)) = [1] /\
  close_count (effects r2) = 1 /\ _openSockets (this (final r2)) = [1].
Proof. cbv zeta. repeat split; reflexivity. Qed.

(* ================================================================== *)
(** ** TunnelProxy.dispose *)

Lemma dispose_effects_teardown t :
  forallb is_teardown (effects (TunnelSocket_dispose t)) = true.
Proof. destruct t as [r sk cl cr [[]|] wc cn ls]; reflexivity. Qed.

Lemma with_object_dispose r w :
  with_object r TunnelSocket_dispose w =
  (Returned tt, set_heap (dispose_at r) w,
   match nth_error (heap w) r with
   | Some t => effects (TunnelSocket_dispose t)
   | None => []
   end).
Proof.
  unfold with_object, dispose_at, set_heap.
  destruct (nth_error (heap w) r) as [t|]; [|destruct w; reflexivity].
  rewrite (run_eta (TunnelSocket_dispose t)), dispose_returns. reflexivity.
Qed.

Lemma dispose_out_teardown refs : forall h,
  forallb is_teardown (dispose_out refs h) = true.
Proof.
  induction refs as [|r refs IH]; intros h; [reflexivity|].
  cbn [dispose_out]. rewrite forallb_app, IH, andb_true_r.
  destruct (nth_error h r); [apply dispose_effects_teardown|reflexivity].
Qed.

Lemma forEach_dispose refs : forall w,
  forEach refs (fun r => with_object r TunnelSocket_dispose) w =
  (Returned tt, set_heap (dispose_heap refs) w, dispose_out refs (heap w)).
Proof.
  induction refs as [|r refs IH]; intros w.
  - destruct w; reflexivity.
  - cbn [forEach].
    rewrite (bind_returned _ _ w tt) by (rewrite with_object_dispose; reflexivity).
    rewrite with_object_dispose. project. rewrite IH. project.
    destruct w; reflexivity.
Qed.

(** dispose() of the proxy in closed form. *)
Lemma TunnelProxy_dispose_closed w :
  TunnelProxy_dispose w =
  (Returned tt, disposed_world w,
   (dispose_out (_openSockets (this w)) (heap w) ++ [ServerClose; ServerUnref])%list).
Proof.
  unfold TunnelProxy_dispose, bind at 1, get.
  unfold bind at 1. rewrite forEach_dispose. reflexivity.
Qed.

Lemma TunnelProxy_dispose_run w :
  exists out,
    TunnelProxy_dispose w = (Returned tt, disposed_world w, out) /\
    forallb is_teardown out = true.
Proof.
  eexists. split; [apply TunnelProxy_dispose_closed|].
  rewrite forallb_app, dispose_out_teardown. reflexivity.
Qed.

(* ================================================================== *)
(** ** Suspension points *)

Lemma teardown_not_polling out :
  forallb is_teardown out = true -> polling_effects out = [].
Proof.
  induction out as [|e out IH]; [reflexivity|].
  cbn. intros Hq. apply andb_prop in Hq as [He Hq].
  specialize (IH Hq). unfold polling_effects in *. cbn [filter]. rewrite IH.
  destruct e; try discriminate; reflexivity.
Qed.

Lemma teardown_quiet out :
  forallb is_teardown out = true -> forallb is_quiet out = true.
Proof.
  induction out as [|e out IH]; [reflexivity|].
  cbn. intros Hq. apply andb_prop in Hq as [He Hq].
  unfold is_quiet at 1. rewrite He, (IH Hq). reflexivity.
Qed.

Lemma await_run ms b w :
  exists out,
    await ms b w = (Returned tt, suspended ms b w, out) /\
    forallb is_teardown out = true.
Proof.
  unfold await, suspended, bind, modify. destruct b.
  - destruct (TunnelProxy_dispose_run (advance ms w)) as (out & -> & Hout).
    exists out. auto.
  - exists []. auto.
Qed.

Lemma suspended_now ms b w : now (suspended ms b w) = (now w + ms)%N.
Proof. destruct b; reflexivity. Qed.

Lemma suspended_settings ms b w : settings (suspended ms b w) = settings w.
Proof. destruct b; reflexivity. Qed.

Lemma suspended_unbound ms b w : unbound w -> unbound (suspended ms b w).
Proof.
  unfold unbound. intros (Hl & Hr & Hs & Ho).
  destruct b; cbn; rewrite ?Hl, ?Hr, ?Hs, ?Ho; auto.
Qed.

(* ================================================================== *)
(** ** checkTunnelStatus *)

Section Polling.
Context {H : Host}.

Lemma startupApp_run t w :
  exists out,
    startupApp t w =
    (match ping_response t with
     | PingResponded _ => Returned tt
     | PingRejected err => Threw (Foreign err)
     end,
     suspended (ping_ms t) (dispose_during_ping t) w, out) /\
    polling_effects out = [GetPing (defaultHostUrl (_client (this w)))] /\
    forallb is_quiet out = true.
Proof.
  destruct (await_run (ping_ms t) (dispose_during_ping t) w) as (o1 & Ha & Ho1).
  unfold startupApp. eff. rewrite Ha. eff.
  destruct (ping_response t) as [code|err]; eexists; (split; [reflexivity|]).
  all: cbn [app]; unfold polling_effects; cbn [filter is_polling is_poll is_ping is_delay orb].
  all: rewrite filter_app; fold (polling_effects o1);
    rewrite (teardown_not_polling o1 Ho1); cbn.
  all: split; [reflexivity|].
  all: rewrite forallb_app, (teardown_quiet o1 Ho1); reflexivity.
Qed.

Lemma suspended_isSsh ms b w : _isSsh (this (suspended ms b w)) = _isSsh (this w).
Proof. destruct b; reflexivity. Qed.

Lemma suspended_client ms b w : _client (this (suspended ms b w)) = _client (this w).
Proof. destruct b; reflexivity. Qed.

Lemma not_stopped s :
  (s =? STARTED) = true \/ (s =? STARTING) = true -> (s =? STOPPED) = false.
Proof.
  intros [Hs|Hs]; apply String.eqb_eq in Hs; subst; reflexivity.
Qed.

(** Closes a goal [exists out, run = (c, w, out) /\ polling_effects out = l /\
    forallb is_quiet out = true] once the run is reduced to a triple, with
    the facts on the effects of the suspensions among the hypotheses. *)
Ltac use_effect_facts :=
  repeat match goal with
         | Hx : filter is_polling ?o = _ |- context [filter is_polling ?o] => rewrite Hx
         | Hx : forallb is_quiet ?o = _ |- context [forallb is_quiet ?o] => rewrite Hx
         end.

Ltac settle :=
  eexists; split; [reflexivity|]; split;
  [ unfold polling_effects;
    cbn [filter app is_polling is_poll is_ping is_delay orb];
    rewrite ?filter_app; use_effect_facts; reflexivity
  | cbn [forallb app is_quiet is_teardown is_polling is_poll is_ping is_delay orb andb];
    rewrite ?forallb_app; use_effect_facts; reflexivity ].

(** The status check of a turn in closed form: how it completes, the world
    it leaves, and the requests it makes. *)
Lemma checkTunnelStatus_run t w :
  exists out,
    checkTunnelStatus t w =
    (status_outcome (_isSsh (this w)) t, checked_world t w, out) /\
    polling_effects out = check_requests (this w) t /\
    forallb is_quiet out = true.
Proof.
  destruct (await_run (status_ms t) (dispose_during_status t) w) as (o1 & Ha & Ho1).
  pose proof (teardown_not_polling o1 Ho1) as Hp1.
  pose proof (teardown_quiet o1 Ho1) as Hq1.
  unfold polling_effects in Hp1.
  unfold checkTunnelStatus, status_outcome, checked_world, check_requests, pinged.
  eff. rewrite Ha. eff.
  destruct (status_response t) as [err|body err|body st]; eff; [settle|settle|].
  rewrite suspended_isSsh.
  destruct (state st =? STARTED) eqn:Hstarted.
  { rewrite (not_stopped _ (or_introl Hstarted)).
    destruct ((port st =? 2222)%Z && negb (_isSsh (this w))
              || negb (port st =? 2222)%Z && _isSsh (this w));
      [|destruct (canReachPort st)]; settle. }
  destruct (state st =? STARTING) eqn:Hstarting.
  { rewrite (not_stopped _ (or_intror Hstarting)). settle. }
  destruct (state st =? STOPPED) eqn:Hstopped; [|settle].
  destruct (startupApp_run t (suspended (status_ms t) (dispose_during_status t) w))
    as (o2 & Hs & Hp2 & Hq2).
  rewrite Hs. rewrite suspended_client in Hp2. unfold polling_effects in Hp2.
  destruct (ping_response t) as [code|err]; eff; settle.
Qed.

(* ================================================================== *)
(** ** checkTunnelStatusWithRetry *)

Lemma delay_run ms late b w :
  exists out,
    delay ms late b w = (Returned tt, suspended (ms + late) b w, Delay ms :: out) /\
    forallb is_teardown out = true.
Proof.
  destruct (await_run (ms + late) b w) as (out & Ha & Hout).
  exists out. split; [|exact Hout].
  unfold delay. eff. rewrite Ha. reflexivity.
Qed.

(** The loop is left with the timeout once the deadline has passed. *)
Lemma retryLoop_deadline fuel env i start w :
  (now w <? start + timeoutMs)%N = false ->
  retryLoop (S fuel) env i start w = (Threw tunnelTimedOut, w, []).
Proof.
  intros Hnow. cbn [retryLoop]. eff. rewrite Hnow. reflexivity.
Qed.

(** One turn of the loop before the deadline. *)
Lemma retryLoop_turn fuel env i start w :
  (now w <? start + timeoutMs)%N = true ->
  let c := checkTunnelStatus (env i) w in
  let d := delay pollingIntervalMs (delay_late (env i)) (dispose_during_delay (env i))
                 (final c) in
  let r := retryLoop fuel env (S i) start (final d) in
  retryLoop (S fuel) env i start w =
  match completion c with
  | Returned _ => (Returned tt, final c, effects c)
  | Threw error =>
      if instanceof_Retryable error
      then (completion r, final r, (effects c ++ effects d ++ effects r)%list)
      else (Threw (tunnelFailed error), final c, effects c)
  | Pending => (Pending, final c, effects c)
  end.
Proof.
  intros Hnow c d r. subst r d c.
  cbn [retryLoop]. eff. rewrite Hnow.
  destruct (checkTunnelStatus (env i) w) as [[[[]|error|] w1] o1]; project; eff.
  - rewrite !app_nil_r. reflexivity.
  - destruct (instanceof_Retryable error); cbn [negb]; eff.
    + destruct (delay_run pollingIntervalMs (delay_late (env i))
                          (dispose_during_delay (env i)) w1) as (o2 & -> & _).
      project.
      destruct (retryLoop fuel env (S i) start _) as [[c3 w3] o3]. project.
      rewrite !app_nil_r. reflexivity.
    + rewrite !app_nil_r. reflexivity.
  - reflexivity.
Qed.

Lemma checkTunnelStatusWithRetry_loop fuel env w :
  checkTunnelStatusWithRetry fuel env w = retryLoop fuel env 0 (now w) w.
Proof.
  unfold checkTunnelStatusWithRetry. eff.
  destruct (retryLoop fuel env 0 (now w) w) as [[c w1] o1]. reflexivity.
Qed.

Lemma polls_app a b : polls (a ++ b) = polls a + polls b.
Proof. unfold polls. rewrite filter_app, length_app. reflexivity. Qed.

Lemma delays_app a b : delays (a ++ b) = delays a + delays b.
Proof. unfold delays. rewrite filter_app, length_app. reflexivity. Qed.

Lemma filter_polling (p : Effect -> bool) out :
  (forall e, p e = true -> is_polling e = true) ->
  filter p (polling_effects out) = filter p out.
Proof.
  intros Hp. unfold polling_effects.
  induction out as [|e out IH]; [reflexivity|].
  cbn [filter]. destruct (is_polling e) eqn:He.
  - cbn [filter]. rewrite IH. reflexivity.
  - rewrite IH. destruct (p e) eqn:Hpe; [|reflexivity].
    rewrite (Hp e Hpe) in He. discriminate.
Qed.

Lemma polls_polling out : polls (polling_effects out) = polls out.
Proof.
  unfold polls. rewrite filter_polling; [reflexivity|].
  intros e He. unfold is_polling. rewrite He. reflexivity.
Qed.

Lemma delays_polling out : delays (polling_effects out) = delays out.
Proof.
  unfold delays. rewrite filter_polling; [reflexivity|].
  intros e He. unfold is_polling. rewrite He. apply orb_true_r.
Qed.

(** A status check makes one status request and sets no timer. *)
Lemma check_polls t w :
  polls (effects (checkTunnelStatus t w)) = 1 /\
  delays (effects (checkTunnelStatus t w)) = 0.
Proof.
  destruct (checkTunnelStatus_run t w) as (out & -> & Hp & _). project.
  rewrite <- polls_polling, <- delays_polling, Hp.
  unfold check_requests. destruct (pinged t); split; reflexivity.
Qed.

(** A delay sets one timer and makes no request. *)
Lemma delay_polls ms late b w :
  polls (effects (delay ms late b w)) = 0 /\
  delays (effects (delay ms late b w)) = 1 /\
  polling_effects (effects (delay ms late b w)) = [Delay ms].
Proof.
  destruct (delay_run ms late b w) as (out & -> & Hout). project.
  rewrite <- polls_polling, <- delays_polling.
  unfold polling_effects. cbn [filter is_polling is_poll is_ping is_delay orb].
  fold (polling_effects out). rewrite (teardown_not_polling out Hout).
  repeat split; reflexivity.
Qed.

(** The run of the loop from its entry, seen from a head it reaches. *)
Lemma reaches_run env start w0 i w :
  reaches env start w0 i w ->
  forall fuel,
    exists pre,
      retryLoop (i + fuel) env 0 start w0 =
      (completion (retryLoop fuel env i start w),
       final (retryLoop fuel env i start w),
       (pre ++ effects (retryLoop fuel env i start w))%list) /\
      polls pre = i /\ delays pre = i.
Proof.
  induction 1 as [|i w Hreach IH Hnow Hretry]; intros fuel.
  - exists []. split; [apply run_eta|]. split; reflexivity.
  - destruct (IH (S fuel)) as (pre & Hrun & Hpolls & Hdelays).
    rewrite (retryLoop_turn fuel env i start w Hnow) in Hrun. cbv zeta in Hrun.
    destruct (completion (checkTunnelStatus (env i) w)) as [[]|error|];
      cbn [classify] in Hretry; try discriminate.
    destruct (instanceof_Retryable error); [|discriminate].
    revert Hrun. project. intros Hrun.
    rewrite Nat.add_succ_r in Hrun. cbn [Nat.add]. rewrite Hrun.
    eexists. split; [rewrite !app_assoc; reflexivity|].
    rewrite !polls_app, !delays_app, Hpolls, Hdelays.
    destruct (check_polls (env i) w) as [-> ->].
    destruct (delay_polls pollingIntervalMs (delay_late (env i))
                          (dispose_during_delay (env i))
                          (final (checkTunnelStatus (env i) w))) as (-> & -> & _).
    split; lia.
Qed.
End Polling.

(** How a status check completes depends on the answers of the turn and on
    [_isSsh] only. *)
Lemma check_completion {H : Host} t w :
  completion (checkTunnelStatus t w) = status_outcome (_isSsh (this w)) t.
Proof. destruct (checkTunnelStatus_run t w) as (out & -> & _). reflexivity. Qed.

Lemma check_final {H : Host} t w :
  final (checkTunnelStatus t w) = checked_world t w.
Proof. destruct (checkTunnelStatus_run t w) as (out & -> & _). reflexivity. Qed.

(** A Fatal classification at a head of the loop: the loop rejects with the
    effects of that check as its last effects. *)
Lemma fatal_turn {H : Host} fuel env i start w error :
  (now w <? start + timeoutMs)%N = true ->
  classify (completion (checkTunnelStatus (env i) w)) = Some (Fatal error) ->
  retryLoop (S fuel) env i start w =
  (Threw (tunnelFailed error), final (checkTunnelStatus (env i) w),
   effects (checkTunnelStatus (env i) w)).
Proof.
  intros Hnow Hfatal. rewrite (retryLoop_turn fuel env i start w Hnow). cbv zeta.
  destruct (completion (checkTunnelStatus (env i) w)) as [[]|e|];
    cbn [classify] in Hfatal; try discriminate.
  destruct (instanceof_Retryable e); inversion Hfatal; subst. reflexivity.
Qed.

(** The whole wait when a reached head classifies Fatal. *)
Lemma fatal_run {H : Host} env w0 i w fuel error :
  reaches env (now w0) w0 i w ->
  (now w <? now w0 + timeoutMs)%N = true ->
  classify (completion (checkTunnelStatus (env i) w)) = Some (Fatal error) ->
  let r := checkTunnelStatusWithRetry (i + S fuel) env w0 in
  completion r = Threw (tunnelFailed error) /\
  final r = final (checkTunnelStatus (env i) w) /\
  polls (effects r) = i + 1 /\
  delays (effects r) = i /\
  exists pre, effects r = (pre ++ effects (checkTunnelStatus (env i) w))%list.
Proof.
  intros Hreach Hnow Hfatal r. subst r.
  rewrite checkTunnelStatusWithRetry_loop.
  destruct (reaches_run env (now w0) w0 i w Hreach (S fuel)) as (pre & -> & Hp & Hd).
  rewrite (fatal_turn fuel env i (now w0) w error Hnow Hfatal). project.
  rewrite polls_app, delays_app, Hp, Hd.
  destruct (check_polls (env i) w) as [-> ->].
  repeat split; try lia. exists pre. reflexivity.
Qed.

(* ================================================================== *)
(** ** C3 *)

(** C3: a fetched status with state STARTED, port 2222 and canReachPort true
    is classified Retryable when the proxy is not an SSH tunnel and Ready
    when it is; a status with state STARTED and a port other than 2222 is
    classified Retryable when the proxy is an SSH tunnel. *)
Theorem C3_port_class :
  forall (H : Host) (w : World) (t : PollTurn) (body : string) (tunnelStatus : ITunnelStatus),
    status_response t = BodyDecoded body tunnelStatus ->
    state tunnelStatus = STARTED ->
    (port tunnelStatus = 2222%Z -> canReachPort tunnelStatus = true ->
     _isSsh (this w) = false ->
     classify (completion (checkTunnelStatus t w)) = Some Retryable) /\
    (port tunnelStatus = 2222%Z -> canReachPort tunnelStatus = true ->
     _isSsh (this w) = true ->
     classify (completion (checkTunnelStatus t w)) = Some Ready) /\
    (port tunnelStatus <> 2222%Z -> _isSsh (this w) = true ->
     classify (completion (checkTunnelStatus t w)) = Some Retryable).
Proof.
  intros H w t body st Hr Hstate.
  rewrite check_completion. unfold status_outcome. rewrite Hr, Hstate.
  cbn [String.eqb Ascii.eqb Bool.eqb STARTED]. repeat split.
  - intros -> -> ->. reflexivity.
  - intros -> -> ->. reflexivity.
  - intros Hport ->. apply Z.eqb_neq in Hport. rewrite Hport. reflexivity.
Qed.

Lemma C3_port_class_witness :
  classify (completion (@checkTunnelStatus plainHost
     (sample_turn (BodyDecoded "" (sample_status STARTED 2222 true))) (sample_world false)))
  = Some Retryable /\
  classify (completion (@checkTunnelStatus plainHost
     (sample_turn (BodyDecoded "" (sample_status STARTED 2222 true))) (sample_world true)))
  = Some Ready /\
  classify (completion (@checkTunnelStatus plainHost
     (sample_turn (BodyDecoded "" (sample_status STARTED 8080 false))) (sample_world true)))
  = Some Retryable.
Proof.
  split; [|split].
  - apply (proj1 (C3_port_class plainHost (sample_world false)
                    (sample_turn (BodyDecoded "" (sample_status STARTED 2222 true)))
                    "" (sample_status STARTED 2222 true) eq_refl eq_refl));
      reflexivity.
  - apply (proj1 (proj2 (C3_port_class plainHost (sample_world true)
                    (sample_turn (BodyDecoded "" (sample_status STARTED 2222 true)))
                    "" (sample_status STARTED 2222 true) eq_refl eq_refl)));
      reflexivity.
  - apply (proj2 (proj2 (C3_port_class plainHost (sample_world true)
                    (sample_turn (BodyDecoded "" (sample_status STARTED 8080 false)))
                    "" (sample_status STARTED 8080 false) eq_refl eq_refl)));
      [discriminate | reflexivity].
Defined.

(* ================================================================== *)
(** ** C4 *)

Lemma fatal_answer_classified {H : Host} t w :
  fatal_answer (_isSsh (this w)) t ->
  exists error, classify (completion (checkTunnelStatus t w)) = Some (Fatal error).
Proof.
  rewrite check_completion. unfold fatal_answer, status_outcome.
  destruct (status_response t) as [err|body err|body st];
    [intros _; eexists; reflexivity | intros _; eexists; reflexivity |].
  intros [(Hs & Hp & Hc)|(Hs1 & Hs2 & Hs3)].
  - rewrite Hs, Hp, Hc. cbn [String.eqb Ascii.eqb Bool.eqb STARTED].
    destruct (_isSsh (this w)); eexists; reflexivity.
  - apply String.eqb_neq in Hs1, Hs2, Hs3. rewrite Hs1, Hs2, Hs3.
    eexists; reflexivity.
Qed.

(** C4: when the answer to a status check of the polling wait is one of the
    Fatal ones (the app is started with the port unreachable, the state is
    unexpected, the request or the decoding failed), the check is classified
    Fatal and the wait rejects at once: the effects of the wait end with that
    check, the world is the one the check left (no time has passed, no timer
    was set), and over the whole wait the polls are those up to this one and
    the timers those of the turns before it. *)
Theorem C4_fatal_fails_immediately :
  forall (H : Host) (env : nat -> PollTurn) (w0 : World) (i : nat) (w : World)
         (fuel : nat),
    reaches env (now w0) w0 i w ->
    (now w <? now w0 + timeoutMs)%N = true ->
    fatal_answer (_isSsh (this w)) (env i) ->
    let r := checkTunnelStatusWithRetry (i + S fuel) env w0 in
    exists error,
      classify (completion (checkTunnelStatus (env i) w)) = Some (Fatal error) /\
      completion r = Threw (tunnelFailed error) /\
      final r = final (checkTunnelStatus (env i) w) /\
      polls (effects r) = i + 1 /\
      delays (effects r) = i /\
      exists pre, effects r = (pre ++ effects (checkTunnelStatus (env i) w))%list.
Proof.
  intros H env w0 i w fuel Hreach Hnow Hfatal r.
  destruct (fatal_answer_classified (env i) w Hfatal) as (error & Hclass).
  exists error. split; [exact Hclass|].
  apply (fatal_run env w0 i w fuel error Hreach Hnow Hclass).
Qed.

Lemma C4_fatal_fails_immediately_witness :
  let env := fun _ : nat => sample_turn (BodyDecoded "" (sample_status STARTED 8080 false)) in
  let r := @checkTunnelStatusWithRetry plainHost 1 env (sample_world false) in
  exists error,
    classify (completion (@checkTunnelStatus plainHost (env 0) (sample_world false)))
    = Some (Fatal error) /\
    completion r = Threw (@tunnelFailed plainHost error) /\
    final r = final (@checkTunnelStatus plainHost (env 0) (sample_world false)) /\
    polls (effects r) = 1 /\
    delays (effects r) = 0 /\
    exists pre,
      effects r = (pre ++ effects (@checkTunnelStatus plainHost (env 0) (sample_world false)))%list.
Proof.
  intros env r.
  apply (C4_fatal_fails_immediately plainHost env (sample_world false) 0
           (sample_world false) 0).
  - apply reaches_start.
  - reflexivity.
  - left. repeat split; reflexivity.
Defined.

(* ================================================================== *)
(** ** C6 *)

(** C6: for a fetched status with state STOPPED the checker sends the wake
    ping, a GET to the default URL of the application, after the status
    request; whatever status code the ping is answered with, the check is
    classified Retryable, and the loop sets the timer of 5000 ms and goes on
    with the next turn no earlier than 5000 ms later. *)
Theorem C6_stopped_pings_then_retries :
  forall (H : Host) (env : nat -> PollTurn) (start : N) (i : nat) (w : World) (fuel : nat)
         (body : string) (tunnelStatus : ITunnelStatus) (statusCode : Z),
    (now w <? start + timeoutMs)%N = true ->
    status_response (env i) = BodyDecoded body tunnelStatus ->
    state tunnelStatus = STOPPED ->
    ping_response (env i) = PingResponded statusCode ->
    let c := checkTunnelStatus (env i) w in
    let d := delay pollingIntervalMs (delay_late (env i)) (dispose_during_delay (env i))
                   (final c) in
    let next := retryLoop fuel env (S i) start (final d) in
    classify (completion c) = Some Retryable /\
    polling_effects (effects c) =
      [GetStatus ("https://" ++ kuduHostName (_client (this w))
                  ++ "/AppServiceTunnel/Tunnel.ashx?GetStatus&GetStatusAPIVer=2")
                 "vscode-azuretools"
                 (publishingUserName (_publishCredential (this w)))
                 (publishingPassword (_publishCredential (this w)));
       GetPing (defaultHostUrl (_client (this w)))] /\
    polling_effects (effects d) = [Delay 5000] /\
    now (final d) = (now (final c) + 5000 + delay_late (env i))%N /\
    retryLoop (S fuel) env i start w =
      (completion next, final next, (effects c ++ effects d ++ effects next)%list).
Proof.
  intros H env start i w fuel body st code Hnow Hr Hstate Hping c d next.
  assert (Hc : completion c = Threw RetryableTunnelStatusError).
  { subst c. rewrite check_completion. unfold status_outcome.
    rewrite Hr, Hstate, Hping. reflexivity. }
  split; [rewrite Hc; reflexivity|]. split.
  { subst c. destruct (checkTunnelStatus_run (env i) w) as (out & -> & Hp & _).
    project. rewrite Hp. unfold check_requests, pinged. rewrite Hr, Hstate. reflexivity. }
  split.
  { subst d. apply delay_polls. }
  split.
  { subst d.
    destruct (delay_run pollingIntervalMs (delay_late (env i))
                        (dispose_during_delay (env i)) (final c)) as (out & -> & _).
    project. rewrite suspended_now. unfold pollingIntervalMs. lia. }
  subst next d. rewrite (retryLoop_turn fuel env i start w Hnow). cbv zeta.
  fold c. rewrite Hc. reflexivity.
Qed.

Lemma C6_stopped_pings_then_retries_witness :
  let env := fun _ : nat => mkPollTurn (BodyDecoded "" (sample_status STOPPED 2222 true))
                                       0 false (PingResponded 503) 0 false 0 false in
  let w := sample_world false in
  classify (completion (@checkTunnelStatus plainHost (env 0) w)) = Some Retryable /\
  polling_effects (effects (@checkTunnelStatus plainHost (env 0) w)) =
    [GetStatus
       "https://app.scm.azurewebsites.net/AppServiceTunnel/Tunnel.ashx?GetStatus&GetStatusAPIVer=2"
       "vscode-azuretools" "$app" "secret";
     GetPing "https://app.azurewebsites.net"].
Proof.
  intros env w.
  pose proof (C6_stopped_pings_then_retries plainHost env (now w) 0 w 0 ""
                (sample_status STOPPED 2222 true) 503 eq_refl eq_refl eq_refl eq_refl)
    as (Hclass & Hreq & _).
  split; [exact Hclass | exact Hreq].
Defined.

(* ================================================================== *)
(** ** C7 *)

(** C7, as amended: when the status request rejects or JSON.parse throws on
    its body, the check throws an error made from the type of the underlying
    error, [parseError(error).errorType]; the message of the underlying error
    goes to the log only.  The check is classified Fatal: the wait makes no
    further poll and sets no further timer, and rejects with an error that
    wraps the message of the error the check threw. *)
Theorem C7_status_failure_is_fatal :
  forall (H : Host) (env : nat -> PollTurn) (w0 : World) (i : nat) (w : World)
         (fuel : nat) (err : ForeignError),
    reaches env (now w0) w0 i w ->
    (now w <? now w0 + timeoutMs)%N = true ->
    (status_response (env i) = RequestRejected err \/
     exists body, status_response (env i) = BodyMalformed body err) ->
    let statusError :=
      JsError (localize "tunnelStatusError" "Error getting tunnel status: {0}"
                        [errorType (parseError (Foreign err))]) in
    let c := checkTunnelStatus (env i) w in
    let r := checkTunnelStatusWithRetry (i + S fuel) env w0 in
    completion c = Threw statusError /\
    classify (completion c) = Some (Fatal statusError) /\
    In (AppendLine ("[Tunnel] Checking status, error: " ++ message (parseError (Foreign err))))
       (effects c) /\
    completion r =
      Threw (JsError (localize "tunnelFailed"
                               "Unable to establish connection to application: {0}"
                               [message (parseError statusError)])) /\
    polls (effects r) = i + 1 /\
    delays (effects r) = i.
Proof.
  intros H env w0 i w fuel err Hreach Hnow Hr statusError c r.
  assert (Hc : completion c = Threw statusError).
  { subst c. rewrite check_completion. unfold status_outcome.
    destruct Hr as [-> | (body & ->)]; reflexivity. }
  assert (Hclass : classify (completion c) = Some (Fatal statusError)).
  { rewrite Hc. reflexivity. }
  destruct (fatal_run env w0 i w fuel statusError Hreach Hnow Hclass)
    as (Hcr & _ & Hp & Hd & _).
  repeat split; try assumption.
  subst c. unfold checkTunnelStatus. eff.
  destruct (await_run (status_ms (env i)) (dispose_during_status (env i)) w)
    as (o1 & -> & _).
  destruct Hr as [-> | (body & ->)]; eff; project;
    rewrite ?in_app_iff; cbn [In app]; rewrite ?in_app_iff; cbn [In]; auto 10.
Qed.

Lemma C7_status_failure_is_fatal_witness :
  let env := fun _ : nat => sample_turn (RequestRejected connection_refused) in
  let r := @checkTunnelStatusWithRetry plainHost 1 env (sample_world false) in
  completion r =
    Threw (JsError
      "Unable to establish connection to application: Error getting tunnel status: RequestError")
  /\ polls (effects r) = 1 /\ delays (effects r) = 0.
Proof.
  intros env r.
  pose proof (C7_status_failure_is_fatal plainHost env (sample_world false) 0
                (sample_world false) 0 connection_refused
                (reaches_start env _ _) eq_refl (or_introl eq_refl))
    as (_ & _ & _ & Hr & Hp & Hd).
  split; [exact Hr | split; [exact Hp | exact Hd]].
Defined.

(** C7 as stated fails.  The status request is refused: the wait rejects
    with an error that names the type of the underlying error, RequestError;
    the description of the underlying error is in the log and nowhere in the
    error the wait rejects with. *)
Lemma C7_description_not_wrapped :
  let env := fun _ : nat => sample_turn (RequestRejected connection_refused) in
  let r := @checkTunnelStatusWithRetry plainHost 1 env (sample_world false) in
  let rejection :=
    "Unable to establish connection to application: Error getting tunnel status: RequestError" in
  completion r = Threw (JsError rejection) /\
  occurs_in (errorMessage connection_refused) rejection = false /\
  In (AppendLine "[Tunnel] Checking status, error: connect ECONNREFUSED 10.0.0.1:443")
     (effects r).
Proof.
  cbv zeta. split; [reflexivity|]. split; [reflexivity|].
  vm_compute. auto.
Qed.

(* ================================================================== *)
(** ** C10 *)

(** When the polling rejects, startProxy rejects with the same error and does
    nothing more: the server is not set up. *)
Lemma startProxy_rejects {H : Host} fuel env outcome w error :
  completion (checkTunnelStatusWithRetry fuel env w) = Threw error ->
  startProxy fuel env outcome w = checkTunnelStatusWithRetry fuel env w.
Proof.
  intros Hc. unfold startProxy. rewrite (bind_threw _ _ _ _ Hc), <- Hc.
  symmetry. apply run_eta.
Qed.

(** C10: when the remote reports STOPPED and the wake ping itself rejects,
    the check throws the error of the ping, which is not the retryable
    error: the check is classified Fatal, the wait rejects without another
    poll or timer, and startProxy rejects with it, without setting up the
    server. *)
Theorem C10_rejected_ping_is_fatal :
  forall (H : Host) (env : nat -> PollTurn) (w0 : World) (i : nat) (w : World)
         (fuel : nat) (body : string) (tunnelStatus : ITunnelStatus)
         (err : ForeignError) (outcome : ListenOutcome),
    reaches env (now w0) w0 i w ->
    (now w <? now w0 + timeoutMs)%N = true ->
    status_response (env i) = BodyDecoded body tunnelStatus ->
    state tunnelStatus = STOPPED ->
    ping_response (env i) = PingRejected err ->
    let c := checkTunnelStatus (env i) w in
    let r := checkTunnelStatusWithRetry (i + S fuel) env w0 in
    completion c = Threw (Foreign err) /\
    instanceof_Retryable (Foreign err) = false /\
    classify (completion c) = Some (Fatal (Foreign err)) /\
    completion r = Threw (tunnelFailed (Foreign err)) /\
    polls (effects r) = i + 1 /\
    delays (effects r) = i /\
    startProxy (i + S fuel) env outcome w0 = r.
Proof.
  intros H env w0 i w fuel body st err outcome Hreach Hnow Hr Hstate Hping c r.
  assert (Hc : completion c = Threw (Foreign err)).
  { subst c. rewrite check_completion. unfold status_outcome.
    rewrite Hr, Hstate, Hping. reflexivity. }
  assert (Hclass : classify (completion c) = Some (Fatal (Foreign err))).
  { rewrite Hc. reflexivity. }
  destruct (fatal_run env w0 i w fuel (Foreign err) Hreach Hnow Hclass)
    as (Hcr & _ & Hp & Hd & _).
  repeat split; try assumption.
  apply (startProxy_rejects _ _ _ _ _ Hcr).
Qed.

Lemma C10_rejected_ping_is_fatal_witness :
  let env := fun _ : nat => mkPollTurn (BodyDecoded "" (sample_status STOPPED 2222 true))
                                       0 false (PingRejected connection_refused) 0 false
                                       0 false in
  let r := @checkTunnelStatusWithRetry plainHost 1 env (sample_world false) in
  completion r =
    Threw (JsError
      "Unable to establish connection to application: connect ECONNREFUSED 10.0.0.1:443")
  /\ polls (effects r) = 1
  /\ @startProxy plainHost 1 env Listening (sample_world false) = r.
Proof.
  intros env r.
  pose proof (C10_rejected_ping_is_fatal plainHost env (sample_world false) 0
                (sample_world false) 0 "" (sample_status STOPPED 2222 true)
                connection_refused Listening
                (reaches_start env _ _) eq_refl eq_refl eq_refl eq_refl)
    as (_ & _ & _ & Hr & Hp & _ & Hs).
  split; [exact Hr | split; [exact Hp | exact Hs]].
Defined.

(* ================================================================== *)
(** ** C5 *)

Lemma elapsed_lower env k : (pollingIntervalMs * N.of_nat k <= elapsed env k)%N.
Proof.
  induction k as [|k IH]; [cbn; lia|].
  cbn [elapsed]. unfold turn_ms. lia.
Qed.

Lemma elapsed_mono env k k' : k <= k' -> (elapsed env k <= elapsed env k')%N.
Proof.
  induction 1 as [|k' Hle IH]; [lia|]. cbn [elapsed]. lia.
Qed.

Lemma elapsed_exact env :
  (forall i, turn_ms (env i) = pollingIntervalMs) ->
  forall k, elapsed env k = (pollingIntervalMs * N.of_nat k)%N.
Proof.
  intros Hturn. induction k as [|k IH]; [cbn; lia|].
  cbn [elapsed]. rewrite IH, Hturn. lia.
Qed.

Lemma retryable_outcome {H : Host} t w :
  classify (completion (checkTunnelStatus t w)) = Some Retryable ->
  status_outcome (_isSsh (this w)) t = Threw RetryableTunnelStatusError.
Proof.
  rewrite check_completion.
  destruct (status_outcome (_isSsh (this w)) t) as [[]|[]|]; cbn; congruence.
Qed.

(** The clock at the head of the next turn. *)
Lemma next_turn_now {H : Host} t w :
  now (final (delay pollingIntervalMs (delay_late t) (dispose_during_delay t)
                    (final (checkTunnelStatus t w))))
  = (now w + turn_ms t)%N.
Proof.
  destruct (delay_run pollingIntervalMs (delay_late t) (dispose_during_delay t)
                      (final (checkTunnelStatus t w))) as (out & -> & _).
  project. rewrite suspended_now, check_final. unfold checked_world, turn_ms.
  destruct (pinged t); rewrite ?suspended_now; lia.
Qed.

Lemma next_turn_isSsh {H : Host} t w :
  _isSsh (this (final (delay pollingIntervalMs (delay_late t) (dispose_during_delay t)
                             (final (checkTunnelStatus t w)))))
  = _isSsh (this w).
Proof.
  destruct (delay_run pollingIntervalMs (delay_late t) (dispose_during_delay t)
                      (final (checkTunnelStatus t w))) as (out & -> & _).
  project. rewrite suspended_isSsh, check_final. unfold checked_world.
  destruct (pinged t); rewrite ?suspended_isSsh; reflexivity.
Qed.

(** The loop when every check asks for a retry: it ends with the timeout,
    having polled in exactly the turns that began before the deadline. *)
Lemma all_retry_loop {H : Host} env start isSsh :
  (forall i, status_outcome isSsh (env i) = Threw RetryableTunnelStatusError) ->
  forall fuel i w,
    _isSsh (this w) = isSsh ->
    now w = (start + elapsed env i)%N ->
    i <= 48 -> 48 < fuel + i ->
    let r := retryLoop fuel env i start w in
    completion r = Threw tunnelTimedOut /\
    (timeoutMs <= elapsed env (i + polls (effects r)))%N /\
    (forall k, i <= k < i + polls (effects r) -> (elapsed env k < timeoutMs)%N).
Proof.
  intros Hretry. induction fuel as [|fuel IH]; intros i w Hssh Hnow Hi Hfuel; [lia|].
  cbv zeta. destruct (now w <? start + timeoutMs)%N eqn:Hdeadline.
  - apply N.ltb_lt in Hdeadline as Hlt.
    assert (Hi' : i < 48).
    { pose proof (elapsed_lower env i). unfold timeoutMs, timeoutSeconds, pollingIntervalMs in *.
      lia. }
    rewrite (retryLoop_turn fuel env i start w Hdeadline). cbv zeta.
    rewrite check_completion, Hssh, Hretry. cbn [instanceof_Retryable]. project.
    pose proof (next_turn_isSsh (env i) w) as Hssh'. rewrite Hssh in Hssh'.
    pose proof (next_turn_now (env i) w) as Hnow'.
    assert (Hnext : (now w + turn_ms (env i) = start + elapsed env (S i))%N)
      by (rewrite Hnow; cbn [elapsed]; lia).
    rewrite Hnext in Hnow'.
    destruct (IH (S i) _ Hssh' Hnow' Hi' ltac:(lia)) as (Hc & Hge & Hlts).
    rewrite !polls_app.
    destruct (check_polls (env i) w) as [-> _].
    destruct (delay_polls pollingIntervalMs (delay_late (env i))
                          (dispose_during_delay (env i))
                          (final (checkTunnelStatus (env i) w))) as (-> & _).
    split; [exact Hc|]. split.
    + replace (i + (1 + (0 + _))) with (S i + polls (effects (retryLoop fuel env (S i) start
        (final (delay pollingIntervalMs (delay_late (env i)) (dispose_during_delay (env i))
                      (final (checkTunnelStatus (env i) w))))))) by lia.
      exact Hge.
    + intros k Hk. destruct (Nat.eq_dec k i) as [->|Hne]; [lia|].
      apply Hlts. lia.
  - apply N.ltb_ge in Hdeadline.
    rewrite (retryLoop_deadline fuel env i start w
               ltac:(apply N.ltb_ge; exact Hdeadline)). project.
    split; [reflexivity|]. cbn [polls filter length]. rewrite Nat.add_0_r.
    split; [lia|]. intros k Hk. lia.
Qed.

(** C5, as amended: when every poll is classified Retryable, the wait rejects
    with the timeout error; the defaults are a timeout of 240 seconds and an
    interval of 5 seconds.  A turn of the loop lasts the interval plus the
    time the status request, the ping and the late timer take, and a poll is
    made in each turn that begins before the deadline: the number of polls is
    at least 1 and at most floor(timeout/interval) = 48; it is 48 when every
    turn lasts exactly the interval, and it is 47 or 48 when the first 46
    turns end before the deadline. *)
Theorem C5_all_retryable_times_out :
  forall (H : Host) (env : nat -> PollTurn) (w0 : World) (fuel : nat),
    (forall i w, _isSsh (this w) = _isSsh (this w0) ->
                 classify (completion (checkTunnelStatus (env i) w)) = Some Retryable) ->
    48 < fuel ->
    let r := checkTunnelStatusWithRetry fuel env w0 in
    let n := polls (effects r) in
    timeoutSeconds = 240%N /\ pollingIntervalMs = 5000%N /\
    (timeoutMs / pollingIntervalMs = 48)%N /\
    completion r = Threw tunnelTimedOut /\
    1 <= n <= 48 /\
    (elapsed env (n - 1) < timeoutMs <= elapsed env n)%N /\
    ((forall i, turn_ms (env i) = pollingIntervalMs) -> n = 48) /\
    ((elapsed env 46 < timeoutMs)%N -> 47 <= n).
Proof.
  intros H env w0 fuel Hretry Hfuel r n.
  assert (Hout : forall i, status_outcome (_isSsh (this w0)) (env i)
                           = Threw RetryableTunnelStatusError).
  { intros i. apply (retryable_outcome (env i) w0), Hretry. reflexivity. }
  destruct (all_retry_loop env (now w0) (_isSsh (this w0)) Hout fuel 0 w0 eq_refl)
    as (Hc & Hge & Hlt); [cbn; lia | lia | lia |].
  assert (Hr : r = retryLoop fuel env 0 (now w0) w0)
    by apply checkTunnelStatusWithRetry_loop.
  subst n. rewrite Hr. cbn [Nat.add] in Hge, Hlt.
  set (n := polls (effects (retryLoop fuel env 0 (now w0) w0))) in *.
  assert (Hn1 : 1 <= n).
  { destruct n; [|lia]. cbn in Hge. unfold timeoutMs, timeoutSeconds in Hge. lia. }
  assert (Hn48 : n <= 48).
  { pose proof (elapsed_lower env (n - 1)) as Hlow.
    specialize (Hlt (n - 1) ltac:(lia)).
    unfold timeoutMs, timeoutSeconds, pollingIntervalMs in *. lia. }
  repeat split; try reflexivity; try assumption.
  - apply Hlt. lia.
  - intros Hturn.
    specialize (Hlt (n - 1) ltac:(lia)).
    rewrite (elapsed_exact env Hturn) in Hge, Hlt.
    unfold timeoutMs, timeoutSeconds, pollingIntervalMs in *. lia.
  - intros H46. destruct (le_lt_dec 47 n) as [Hle|Hgt]; [exact Hle|].
    pose proof (elapsed_mono env n 46 ltac:(lia)). lia.
Qed.

Lemma C5_all_retryable_times_out_witness :
  let r := @checkTunnelStatusWithRetry plainHost 49 starting_env (sample_world false) in
  completion r
  = Threw (JsError "Unable to establish connection to application: Timed out") /\
  polls (effects r) = 48.
Proof.
  intros r.
  assert (Hretry : forall i w,
             _isSsh (this w) = _isSsh (this (sample_world false)) ->
             classify (completion (@checkTunnelStatus plainHost (starting_env i) w))
             = Some Retryable).
  { intros i w _. rewrite check_completion. reflexivity. }
  pose proof (C5_all_retryable_times_out plainHost starting_env (sample_world false) 49
                Hretry ltac:(lia)) as (_ & _ & _ & Hc & _ & _ & Hn & _).
  split; [exact Hc | apply Hn; reflexivity].
Defined.

(** C5 as stated fails.  The remote answers STARTING to every poll, and each
    status request takes five seconds: a turn lasts ten seconds, and the wait
    times out after 24 polls, not after 47 to 49. *)
Lemma C5_slow_requests_halve_the_polls :
  let r := @checkTunnelStatusWithRetry plainHost 49 slow_starting_env (sample_world false) in
  (forall i, classify (completion (@checkTunnelStatus plainHost (slow_starting_env i)
                                                      (sample_world false)))
             = Some Retryable) /\
  completion r
  = Threw (JsError "Unable to establish connection to application: Timed out") /\
  polls (effects r) = 24 /\
  ~ (N.to_nat (timeoutMs / pollingIntervalMs) - 1 <= polls (effects r)
     <= N.to_nat (timeoutMs / pollingIntervalMs) + 1).
Proof.
  cbv zeta. split; [intros i; reflexivity|].
  split; [vm_compute; reflexivity|].
  assert (Hn : polls (effects (@checkTunnelStatusWithRetry plainHost 49 slow_starting_env
                                 (sample_world false))) = 24) by (vm_compute; reflexivity).
  split; [exact Hn|]. rewrite Hn. vm_compute. intros [Hlo _].
  repeat (apply le_S_n in Hlo). inversion Hlo.
Qed.

(* ================================================================== *)
(** ** C2 *)

Lemma checked_now t w :
  now (checked_world t w)
  = (now w + status_ms t + (if pinged t then ping_ms t else 0))%N.
Proof.
  unfold checked_world. destruct (pinged t); rewrite ?suspended_now; lia.
Qed.

Lemma checked_settings t w : settings (checked_world t w) = settings w.
Proof.
  unfold checked_world. destruct (pinged t); rewrite ?suspended_settings; reflexivity.
Qed.

Lemma next_turn_settings {H : Host} t w :
  settings (final (delay pollingIntervalMs (delay_late t) (dispose_during_delay t)
                         (final (checkTunnelStatus t w))))
  = settings w.
Proof.
  destruct (delay_run pollingIntervalMs (delay_late t) (dispose_during_delay t)
                      (final (checkTunnelStatus t w))) as (out & -> & _).
  project. rewrite suspended_settings, check_final. apply checked_settings.
Qed.

Lemma check_polling {H : Host} t w :
  polling_effects (effects (checkTunnelStatus t w)) = check_requests (this w) t.
Proof. destruct (checkTunnelStatus_run t w) as (out & -> & Hp & _). exact Hp. Qed.

Lemma check_requests_settings t w w' :
  settings w = settings w' -> check_requests (this w) t = check_requests (this w') t.
Proof.
  unfold settings, check_requests. intros Hs. inversion Hs as [[Hp Hc Hu Hi]].
  rewrite Hc, Hu. reflexivity.
Qed.

Lemma polling_effects_app a b :
  polling_effects (a ++ b) = (polling_effects a ++ polling_effects b)%list.
Proof. apply filter_app. Qed.

(** The loop does not read anything dispose() writes: with and without the
    dispose() calls of the owner it completes alike, with the same requests
    and timers, at the same time. *)
Lemma loop_ignores_dispose {H : Host} env start :
  forall fuel i w w',
    now w = now w' -> settings w = settings w' ->
    let r := retryLoop fuel env i start w in
    let r' := retryLoop fuel (fun j => undisturbed (env j)) i start w' in
    completion r = completion r' /\
    polling_effects (effects r) = polling_effects (effects r') /\
    now (final r) = now (final r').
Proof.
  induction fuel as [|fuel IH]; intros i w w' Hnow Hset; [cbn; auto|].
  cbv zeta.
  assert (Hssh : _isSsh (this w) = _isSsh (this w')).
  { unfold settings in Hset. inversion Hset. reflexivity. }
  destruct (now w <? start + timeoutMs)%N eqn:Hdeadline.
  - rewrite (retryLoop_turn fuel env i start w Hdeadline).
    rewrite (retryLoop_turn fuel (fun j => undisturbed (env j)) i start w')
      by (rewrite <- Hnow; exact Hdeadline).
    cbv zeta. rewrite !check_completion, <- Hssh.
    change (status_outcome (_isSsh (this w)) (undisturbed (env i)))
      with (status_outcome (_isSsh (this w)) (env i)).
    assert (Hreq : polling_effects (effects (checkTunnelStatus (env i) w))
                   = polling_effects (effects (checkTunnelStatus (undisturbed (env i)) w'))).
    { rewrite !check_polling, (check_requests_settings _ w w' Hset). reflexivity. }
    assert (Hend : now (final (checkTunnelStatus (env i) w))
                   = now (final (checkTunnelStatus (undisturbed (env i)) w'))).
    { rewrite !check_final, !checked_now, Hnow. reflexivity. }
    destruct (status_outcome (_isSsh (this w)) (env i)) as [[]|error|]; project; auto.
    destruct (instanceof_Retryable error); project; auto.
    destruct (IH (S i)
                 (final (delay pollingIntervalMs (delay_late (env i))
                               (dispose_during_delay (env i))
                               (final (checkTunnelStatus (env i) w))))
                 (final (delay pollingIntervalMs (delay_late (undisturbed (env i)))
                               (dispose_during_delay (undisturbed (env i)))
                               (final (checkTunnelStatus (undisturbed (env i)) w')))))
      as (Hc & Hp & Hn).
    + rewrite !next_turn_now, Hnow. reflexivity.
    + rewrite !next_turn_settings. exact Hset.
    + rewrite !polling_effects_app, Hreq, Hp.
      destruct (delay_polls pollingIntervalMs (delay_late (env i))
                            (dispose_during_delay (env i))
                            (final (checkTunnelStatus (env i) w))) as (_ & _ & ->).
      destruct (delay_polls pollingIntervalMs (delay_late (undisturbed (env i)))
                            (dispose_during_delay (undisturbed (env i)))
                            (final (checkTunnelStatus (undisturbed (env i)) w')))
        as (_ & _ & ->).
      auto.
  - rewrite (retryLoop_deadline fuel env i start w Hdeadline).
    rewrite (retryLoop_deadline fuel (fun j => undisturbed (env j)) i start w')
      by (rewrite <- Hnow; exact Hdeadline).
    project. auto.
Qed.

(** C2, as amended: the polling loop has no cancellation.  dispose() called
    while the wait is in progress closes the server and the registered
    forwarders and leaves the loop as it is: the wait completes the same way,
    after the same status requests, pings and timers and at the same time, as
    when the owner does not call dispose(). *)
Theorem C2_dispose_does_not_cancel_polling :
  forall (H : Host) (fuel : nat) (env : nat -> PollTurn) (w : World),
    let r := checkTunnelStatusWithRetry fuel env w in
    let r' := checkTunnelStatusWithRetry fuel (fun i => undisturbed (env i)) w in
    completion r = completion r' /\
    polling_effects (effects r) = polling_effects (effects r') /\
    now (final r) = now (final r').
Proof.
  intros H fuel env w. cbv zeta. rewrite !checkTunnelStatusWithRetry_loop.
  apply loop_ignores_dispose; reflexivity.
Qed.

(** C2 as stated fails.  The remote answers STARTING to every poll and the
    owner calls dispose() during the first delay: the server is closed, and
    the loop goes on to make the remaining 47 of its 48 polls. *)
Lemma C2_polling_continues_after_dispose :
  let r := @checkTunnelStatusWithRetry plainHost 49 disposed_starting_env
                                       (sample_world false) in
  polls (effects r) = 48 /\
  existsb is_server_close (effects r) = true /\
  polls (after is_server_close (effects r)) = 47 /\
  polls (after is_server_close (effects r)) <> 0.
Proof.
  cbv zeta. repeat split; try (vm_compute; reflexivity).
  vm_compute. discriminate.
Qed.

(* ================================================================== *)
(** ** C9 *)

Lemma nth_error_update {A} (x : A) : forall l i j,
  nth_error (update i x l) j =
  if Nat.eqb j i
  then match nth_error l j with Some _ => Some x | None => None end
  else nth_error l j.
Proof.
  induction l as [|y l IH]; intros i j.
  - destruct i, j; cbn; try reflexivity. destruct (Nat.eqb j i); reflexivity.
  - destruct i as [|i], j as [|j]; cbn; try reflexivity. apply IH.
Qed.

Lemma dispose_at_lookup r h j :
  nth_error (dispose_at r h) j =
  if Nat.eqb j r
  then option_map (fun t => final (TunnelSocket_dispose t)) (nth_error h j)
  else nth_error h j.
Proof.
  unfold dispose_at. destruct (nth_error h r) as [t|] eqn:Hr.
  - rewrite nth_error_update. destruct (Nat.eqb_spec j r) as [->|]; [|reflexivity].
    rewrite Hr. reflexivity.
  - destruct (Nat.eqb_spec j r) as [->|]; [|reflexivity].
    rewrite Hr. reflexivity.
Qed.

(** The heap after the forEach of dispose(): the forwarders of the registry
    are disposed, the others are untouched. *)
Lemma dispose_heap_lookup refs : forall h j,
  nth_error (dispose_heap refs h) j =
  if existsb (Nat.eqb j) refs
  then option_map (fun t => final (TunnelSocket_dispose t)) (nth_error h j)
  else nth_error h j.
Proof.
  induction refs as [|r refs IH]; intros h j; [reflexivity|].
  cbn [dispose_heap fold_left existsb].
  change (fold_left (fun h r => dispose_at r h) refs (dispose_at r h))
    with (dispose_heap refs (dispose_at r h)).
  rewrite IH, dispose_at_lookup.
  destruct (Nat.eqb j r), (existsb (Nat.eqb j) refs); cbn [orb]; try reflexivity.
  destruct (nth_error h j) as [t|]; [|reflexivity].
  cbn [option_map]. rewrite dispose_idempotent. reflexivity.
Qed.




Lemma existsb_ref r refs : In r refs -> existsb (Nat.eqb r) refs = true.
Proof.
  intros Hin. apply existsb_exists. exists r. split; [exact Hin|apply Nat.eqb_refl].
Qed.



(* ================================================================== *)
(** ** C8 *)

Lemma quiet_not_listen out :
  forallb is_quiet out = true -> filter is_listen out = [].
Proof.
  induction out as [|e out IH]; [reflexivity|].
  cbn [forallb filter]. intros Hq. apply andb_prop in Hq as [He Hq].
  rewrite (IH Hq). destruct e; try discriminate; reflexivity.
Qed.

Lemma checked_unbound t w : unbound w -> unbound (checked_world t w).
Proof.
  intros Hu. unfold checked_world.
  destruct (pinged t); repeat apply suspended_unbound; exact Hu.
Qed.

(** The polling makes no call but requests, timers and teardowns, and leaves
    an unbound server unbound. *)
Lemma loop_quiet {H : Host} env start :
  forall fuel i w,
    let r := retryLoop fuel env i start w in
    forallb is_quiet (effects r) = true /\ (unbound w -> unbound (final r)) /\
    settings (final r) = settings w.
Proof.
  induction fuel as [|fuel IH]; intros i w; [cbn; auto|].
  cbv zeta. destruct (now w <? start + timeoutMs)%N eqn:Hdeadline.
  - rewrite (retryLoop_turn fuel env i start w Hdeadline). cbv zeta.
    destruct (checkTunnelStatus_run (env i) w) as (o1 & Hc & _ & Hq1).
    rewrite Hc. project.
    pose proof (checked_unbound (env i) w) as Hu1.
    pose proof (checked_settings (env i) w) as Hs1.
    destruct (status_outcome (_isSsh (this w)) (env i)) as [[]|error|]; project; auto.
    destruct (instanceof_Retryable error); project; auto.
    destruct (delay_run pollingIntervalMs (delay_late (env i))
                        (dispose_during_delay (env i)) (checked_world (env i) w))
      as (o2 & -> & Hq2). project.
    destruct (IH (S i) (suspended (pollingIntervalMs + delay_late (env i))
                                  (dispose_during_delay (env i))
                                  (checked_world (env i) w))) as (Hq3 & Hu3 & Hs3).
    split; [|split].
    + rewrite !forallb_app, Hq1, Hq3. cbn [forallb]. rewrite (teardown_quiet o2 Hq2).
      reflexivity.
    + intros Hu. apply Hu3, suspended_unbound, Hu1, Hu.
    + rewrite Hs3, suspended_settings. exact Hs1.
  - rewrite (retryLoop_deadline fuel env i start w Hdeadline). project. auto.
Qed.

(** A wait that resolves has reached a turn whose check was classified Ready,
    and ends with that check. *)
Lemma loop_ready {H : Host} env start w0 :
  forall fuel i w,
    reaches env start w0 i w ->
    completion (retryLoop fuel env i start w) = Returned tt ->
    exists k wk,
      reaches env start w0 k wk /\
      (now wk <? start + timeoutMs)%N = true /\
      classify (completion (checkTunnelStatus (env k) wk)) = Some Ready /\
      final (retryLoop fuel env i start w) = final (checkTunnelStatus (env k) wk).
Proof.
  induction fuel as [|fuel IH]; intros i w Hreach; [cbn; discriminate|].
  destruct (now w <? start + timeoutMs)%N eqn:Hdeadline.
  - rewrite (retryLoop_turn fuel env i start w Hdeadline). cbv zeta.
    destruct (completion (checkTunnelStatus (env i) w)) as [[]|error|] eqn:Hc;
      project; try discriminate.
    + intros _. exists i, w. rewrite Hc. auto.
    + destruct (instanceof_Retryable error) eqn:Hinst; project; [|discriminate].
      apply IH. apply reaches_retry; [exact Hreach | exact Hdeadline |].
      rewrite Hc. cbn [classify]. rewrite Hinst. reflexivity.
  - rewrite (retryLoop_deadline fuel env i start w Hdeadline). project. discriminate.
Qed.

(** setupTunnelServer in closed form: the first call on the outside world is
    listen() on localhost at the port of the proxy with a backlog of 1. *)
Lemma setupTunnelServer_run outcome w :
  exists rest,
    effects (setupTunnelServer outcome w) =
      ServerListen (mkListenOptions "localhost" (_port (this w)) 1) :: rest /\
    filter is_listen rest = [] /\
    completion (setupTunnelServer outcome w) =
      match outcome with
      | Listening => Returned tt
      | ListenError err => Threw (Foreign err)
      end /\
    listening (_server (this (final (setupTunnelServer outcome w)))) =
      match outcome with
      | Listening => true
      | ListenError _ => false
      end.
Proof.
  unfold setupTunnelServer, on_server_listening, on_server_error. eff.
  destruct outcome as [|err]; eff.
  - eexists. repeat split; reflexivity.
  - rewrite TunnelProxy_dispose_closed. eff.
    eexists. split; [reflexivity|]. split; [|split; reflexivity].
    cbn [app filter is_listen].
    rewrite app_nil_r. apply quiet_not_listen, teardown_quiet.
    rewrite forallb_app, dispose_out_teardown. reflexivity.
Qed.

Lemma accept_unbound socket w :
  unbound w -> accept socket w = (Returned tt, w, []).
Proof.
  intros (Hl & _). unfold accept. eff. rewrite Hl. reflexivity.
Qed.

Lemma startProxy_not_ready {H : Host} fuel env outcome w :
  completion (checkTunnelStatusWithRetry fuel env w) <> Returned tt ->
  startProxy fuel env outcome w = checkTunnelStatusWithRetry fuel env w.
Proof.
  unfold startProxy, bind.
  destruct (checkTunnelStatusWithRetry fuel env w) as [[[[]|error|] w1] o1]; project;
    [intros Hc; contradiction Hc|intros _|intros _]; reflexivity.
Qed.

(** C8: in every run of startProxy() the server is asked to listen only
    after the polling has resolved, that is after a status check was
    classified Ready.  Throughout the polling the server is not bound, no
    listen() is called and an arriving connection is not accepted; when the
    polling does not resolve nothing else happens; when it resolves, the next
    call on the outside world is listen() on localhost at the port of the
    proxy with a backlog of 1, and the server is bound once it reports
    'listening'. *)
Theorem C8_listen_only_after_ready :
  forall (H : Host) (fuel : nat) (env : nat -> PollTurn) (outcome : ListenOutcome)
         (w0 : World),
    unbound w0 ->
    let p := checkTunnelStatusWithRetry fuel env w0 in
    let r := startProxy fuel env outcome w0 in
    filter is_listen (effects p) = [] /\
    unbound (final p) /\
    (forall socket, accept socket (final p) = (Returned tt, final p, [])) /\
    (completion p <> Returned tt -> r = p) /\
    (completion p = Returned tt ->
     (exists k wk,
         reaches env (now w0) w0 k wk /\
         classify (completion (checkTunnelStatus (env k) wk)) = Some Ready /\
         final p = final (checkTunnelStatus (env k) wk)) /\
     (exists rest,
         effects r =
           (effects p
            ++ ServerListen (mkListenOptions "localhost" (_port (this w0)) 1) :: rest)%list /\
         filter is_listen rest = []) /\
     completion r = match outcome with
                    | Listening => Returned tt
                    | ListenError err => Threw (Foreign err)
                    end /\
     listening (_server (this (final r))) = match outcome with
                                            | Listening => true
                                            | ListenError _ => false
                                            end).
Proof.
  intros H fuel env outcome w0 Hu p r.
  assert (Hp : p = retryLoop fuel env 0 (now w0) w0)
    by apply checkTunnelStatusWithRetry_loop.
  destruct (loop_quiet env (now w0) fuel 0 w0) as (Hq & Hub & Hset).
  rewrite <- Hp in Hq, Hub, Hset. specialize (Hub Hu).
  split; [apply quiet_not_listen, Hq|].
  split; [exact Hub|].
  split; [intros socket; apply accept_unbound, Hub|].
  split; [apply startProxy_not_ready|].
  intros Hc. split.
  { destruct (loop_ready env (now w0) w0 fuel 0 w0 (reaches_start _ _ _))
      as (k & wk & Hreach & _ & Hready & Hfinal).
    - rewrite <- Hp. exact Hc.
    - exists k, wk. rewrite Hp. auto. }
  subst r. unfold startProxy.
  rewrite (bind_returned (checkTunnelStatusWithRetry fuel env)
                         (fun _ => setupTunnelServer outcome) w0 tt Hc).
  fold p. project.
  destruct (setupTunnelServer_run outcome (final p)) as (rest & -> & Hrest & -> & ->).
  assert (Hport : _port (this (final p)) = _port (this w0)).
  { unfold settings in Hset. inversion Hset. reflexivity. }
  rewrite Hport. split; [exists rest; auto|]. auto.
Qed.

Lemma C8_listen_only_after_ready_witness :
  let env := fun _ : nat => sample_turn (BodyDecoded "" (sample_status STARTED 2222 true)) in
  let p := @checkTunnelStatusWithRetry plainHost 1 env (sample_world true) in
  let r := @startProxy plainHost 1 env Listening (sample_world true) in
  filter is_listen (effects p) = [] /\
  completion p = Returned tt /\
  filter is_listen (effects r) = [ServerListen (mkListenOptions "localhost" 2222 1)] /\
  listening (_server (this (final r))) = true.
Proof.
  intros env p r.
  assert (Hu : unbound (sample_world true)) by (repeat split; reflexivity).
  pose proof (C8_listen_only_after_ready plainHost 1 env Listening (sample_world true) Hu)
    as (Hquiet & _ & _ & _ & Hready).
  split; [exact Hquiet|]. split; [reflexivity|].
  destruct (Hready eq_refl) as (_ & _ & _ & Hbound).
  split; [reflexivity | exact Hbound].
Defined.

(* ================================================================== *)
(** ** Further properties of TunnelSocket *)

Lemma deliver_returns ev t : completion (deliver ev t) = Returned tt.
Proof.
  destruct t as [r [ra rp pa de sl] cl cr [[]|] [l q ab] [[cl' cq]|] ls];
    destruct ev, sl, l; try destruct cl'; reflexivity.
Qed.

Lemma deliver_all_returns evs : forall t, completion (deliver_all evs t) = Returned tt.
Proof.
  induction evs as [|ev rest IH]; intros t; [reflexivity|].
  rewrite (deliver_all_cons ev rest t (deliver_returns ev t)). project. apply IH.
Qed.

Lemma deliver_all_effects ev rest t :
  effects (deliver_all (ev :: rest) t) =
  (effects (deliver ev t) ++ effects (deliver_all rest (final (deliver ev t))))%list.
Proof. rewrite (deliver_all_cons ev rest t (deliver_returns ev t)). reflexivity. Qed.

Lemma deliver_all_final ev rest t :
  final (deliver_all (ev :: rest) t) = final (deliver_all rest (final (deliver ev t))).
Proof. rewrite (deliver_all_cons ev rest t (deliver_returns ev t)). reflexivity. Qed.

Lemma sends_app a b : sends (a ++ b) = (sends a ++ sends b)%list.
Proof.
  induction a as [|e a IH]; [reflexivity|]. destruct e; cbn; rewrite IH; reflexivity.
Qed.

Lemma writes_app a b : writes (a ++ b) = (writes a ++ writes b)%list.
Proof.
  induction a as [|e a IH]; [reflexivity|]. destruct e; cbn; rewrite IH; reflexivity.
Qed.

(** A data event on a forwarder with an open connection is forwarded by one
    call and changes nothing. *)
Lemma traffic_step ev t :
  established t = true -> _wsConnection t = Some TheConnection -> is_traffic ev = true ->
  deliver ev t = (Returned tt, t, forwarded (self t) ev).
Proof.
  intros Hs Hc Ht. rewrite (deliver_listened ev t (established_listened ev t Hs)).
  destruct t as [r sk cl cr ws wc cn ls]. cbn in Hc. subst ws.
  destruct ev; try discriminate; reflexivity.
Qed.

(** X1: while the connection of an established forwarder is open, data
    events are forwarded verbatim, one call per event and in the order of the
    events: a chunk of the local socket is sent on the connection, a message
    of the connection is written to the socket, and nothing else is done. *)
Theorem X1_traffic_is_forwarded_in_order :
  forall (evs : list Event) (t : TunnelSocket),
    established t = true ->
    _wsConnection t = Some TheConnection ->
    forallb is_traffic evs = true ->
    deliver_all evs t = (Returned tt, t, flat_map (forwarded (self t)) evs).
Proof.
  induction evs as [|ev rest IH]; intros t Hs Hc Ht; [reflexivity|].
  cbn [forallb] in Ht. apply andb_prop in Ht as [Hev Hrest].
  pose proof (traffic_step ev t Hs Hc Hev) as Hstep.
  rewrite (deliver_all_cons ev rest t (deliver_returns ev t)), Hstep. project.
  rewrite (IH t Hs Hc Hrest). reflexivity.
Qed.

Lemma X1_traffic_is_forwarded_in_order_witness :
  let a := [Byte.x01; Byte.x02] in
  let b := [Byte.x03] in
  let c := [Byte.x04] in
  effects (deliver_all [SocketData a; ConnectionMessage b; SocketData c] established_forwarder)
  = [WsConnectionSend 0 a; SocketWrite 0 b; WsConnectionSend 0 c].
Proof.
  intros a b c.
  rewrite (X1_traffic_is_forwarded_in_order
             [SocketData a; ConnectionMessage b; SocketData c] established_forwarder
             eq_refl eq_refl eq_refl).
  reflexivity.
Defined.

(** Without the event 'connect' a forwarder without connection stays without
    one, and sends nothing. *)
Lemma unconnected_step ev t :
  _wsConnection t = None -> is_client_connect ev = false ->
  _wsConnection (final (deliver ev t)) = None /\ sends (effects (deliver ev t)) = [].
Proof.
  intros Hc Hev.
  destruct t as [r [ra rp pa de sl] cl cr ws [l q ab] [[cl' cq]|] ls]; cbn in Hc; subst ws;
    destruct ev, sl, l; try destruct cl'; try discriminate; split; reflexivity.
Qed.

Lemma unconnected_run evs : forall t,
  _wsConnection t = None -> existsb is_client_connect evs = false ->
  _wsConnection (final (deliver_all evs t)) = None /\
  sends (effects (deliver_all evs t)) = [].
Proof.
  induction evs as [|ev rest IH]; intros t Hc Hevs; [split; [exact Hc|reflexivity]|].
  cbn [existsb] in Hevs. apply orb_false_elim in Hevs as [Hev Hrest].
  destruct (unconnected_step ev t Hc Hev) as (Hc' & Hs).
  rewrite deliver_all_final, deliver_all_effects, sends_app, Hs.
  destruct (IH _ Hc' Hrest) as (Hc2 & Hs2). rewrite Hs2. auto.
Qed.

(** Before the WebSocket handshake succeeds the socket stays paused. *)
Lemma paused_step ev t :
  paused (_socket t) = true -> _wsConnection t = None -> connection t = None ->
  is_client_connect ev = false ->
  let r := deliver ev t in
  paused (_socket (final r)) = true /\ _wsConnection (final r) = None /\
  connection (final r) = None /\
  filter is_resume (effects r) = [] /\ sends (effects r) = [] /\ writes (effects r) = [].
Proof.
  intros Hp Hc Hn Hev.
  destruct t as [r [ra rp pa de sl] cl cr ws [l q ab] cn ls]. cbn in Hp, Hc, Hn. subst pa ws cn.
  destruct ev, sl, l; try discriminate; repeat split; reflexivity.
Qed.

(** X2: connect() pauses the local socket, and until the WebSocket client
    raises 'connect' nothing resumes it: whatever other events arrive, the
    socket stays paused, nothing is sent on a connection and nothing is
    written to the socket. *)
Theorem X2_socket_paused_until_connected :
  forall (r : SocketRef) (socket : Socket) (client : SiteClient) (credential : User)
         (evs : list Event),
    existsb is_client_connect evs = false ->
    let t := final (TunnelSocket_connect (new_TunnelSocket r socket client credential)) in
    let run := deliver_all evs t in
    paused (_socket t) = true /\
    paused (_socket (final run)) = true /\
    filter is_resume (effects run) = [] /\
    sends (effects run) = [] /\
    writes (effects run) = [].
Proof.
  intros r socket client credential evs Hevs t run. split; [reflexivity|].
  assert (Hinv : paused (_socket t) = true /\ _wsConnection t = None /\ connection t = None)
    by (repeat split; reflexivity).
  subst run. clearbody t. revert t Hinv Hevs.
  induction evs as [|ev rest IH]; intros t (Hp & Hc & Hn) Hevs;
    [repeat split; auto|].
  cbn [existsb] in Hevs. apply orb_false_elim in Hevs as [Hev Hrest].
  destruct (paused_step ev t Hp Hc Hn Hev) as (Hp' & Hc' & Hn' & Hr & Hs & Hw).
  rewrite deliver_all_final, deliver_all_effects, filter_app, sends_app, writes_app,
    Hr, Hs, Hw.
  apply (IH _ (conj Hp' (conj Hc' Hn')) Hrest).
Qed.

Lemma X2_socket_paused_until_connected_witness :
  let evs := [SocketData [Byte.x01]; SocketError (Foreign connection_refused); SocketClose] in
  paused (_socket (final (deliver_all evs connecting_forwarder))) = true /\
  sends (effects (deliver_all evs connecting_forwarder)) = [].
Proof.
  intros evs.
  pose proof (X2_socket_paused_until_connected 0 sample_socket sample_client
                sample_credential evs eq_refl) as (_ & Hp & _ & Hs & _).
  split; [exact Hp | exact Hs].
Defined.

(** X3: after a terminal event the forwarder has forgotten its connection:
    whatever events follow, short of a new 'connect', no chunk of the local
    socket is sent any more. *)
Theorem X3_nothing_sent_after_terminal_event :
  forall (t : TunnelSocket) (ev : Event) (n : Notification) (evs : list Event),
    listened ev t = true ->
    terminal ev = Some n ->
    existsb is_client_connect evs = false ->
    _wsConnection (final (deliver ev t)) = None /\
    sends (effects (deliver_all evs (final (deliver ev t)))) = [].
Proof.
  intros t ev n evs Hl Hn Hevs.
  assert (Hc : _wsConnection (final (deliver ev t)) = None).
  { rewrite (deliver_listened ev t Hl).
    destruct (terminal_listener ev n t Hn) as (_ & -> & _).
    pose proof (dispose_disposes t) as Hd. unfold is_disposed in Hd.
    destruct (_wsConnection (final (TunnelSocket_dispose t))); [|reflexivity].
    rewrite andb_false_r in Hd. discriminate. }
  split; [exact Hc|]. apply (unconnected_run evs _ Hc Hevs).
Qed.

Lemma X3_nothing_sent_after_terminal_event_witness :
  sends (effects (deliver_all [SocketData [Byte.x01]; ConnectionClose]
                              (final (deliver SocketClose established_forwarder)))) = [].
Proof.
  exact (proj2 (X3_nothing_sent_after_terminal_event established_forwarder SocketClose NClose
                  [SocketData [Byte.x01]; ConnectionClose] eq_refl eq_refl eq_refl)).
Defined.

Lemma closes_step ev t :
  connection_closes (effects (deliver ev t)) + open_connections (final (deliver ev t))
  <= open_connections t + (if is_client_connect ev then 1 else 0).
Proof.
  destruct t as [r [ra rp pa de sl] cl cr [[]|] [l q ab] [[cl' cq]|] ls];
    destruct ev, sl, l; try destruct cl'; cbn; lia.
Qed.

(** X4: close() is called on a connection at most once.  Over any sequence
    of events the close() calls, together with the connection still held at
    the end, number at most the connection held at the start plus the
    'connect' events of the sequence. *)
Theorem X4_connection_closed_at_most_once :
  forall (evs : list Event) (t : TunnelSocket),
    connection_closes (effects (deliver_all evs t))
    + open_connections (final (deliver_all evs t))
    <= open_connections t + connects evs.
Proof.
  induction evs as [|ev rest IH]; intros t; [cbn; lia|].
  rewrite deliver_all_final, deliver_all_effects.
  unfold connection_closes, connects in *. rewrite filter_app, length_app.
  specialize (IH (final (deliver ev t))).
  pose proof (closes_step ev t) as Hstep. unfold connection_closes in Hstep.
  cbn [filter]. destruct (is_client_connect ev); cbn [length]; lia.
Qed.

(* ================================================================== *)
(** ** The registry of the proxy *)

Lemma length_update {A} (x : A) : forall l i, length (update i x l) = length l.
Proof.
  induction l as [|y l IH]; intros [|i]; cbn; try reflexivity. rewrite IH. reflexivity.
Qed.

Lemma update_last {A} (x y : A) l : update (length l) y (l ++ [x]) = (l ++ [y])%list.
Proof. induction l as [|z l IH]; cbn; [reflexivity|]. rewrite IH. reflexivity. Qed.

Lemma nth_error_last {A} (x : A) l : nth_error (l ++ [x]) (length l) = Some x.
Proof. induction l as [|z l IH]; cbn; [reflexivity|exact IH]. Qed.

(** indexOf finds the first occurrence, and splice removes it. *)
Lemma indexOf_split x : forall l i,
  indexOf x l = Some i ->
  exists l1 l2, l = (l1 ++ x :: l2)%list /\ splice1 i l = (l1 ++ l2)%list /\ ~ In x l1.
Proof.
  induction l as [|y l IH]; intros i; cbn [indexOf]; [discriminate|].
  destruct (Nat.eqb_spec y x) as [->|Hne].
  - intros Hi. inversion Hi. exists [], l. repeat split; auto.
  - destruct (indexOf x l) as [j|]; [|discriminate].
    intros Hi. inversion Hi. destruct (IH j eq_refl) as (l1 & l2 & -> & Hs & Hnin).
    exists (y :: l1), l2. cbn. rewrite Hs. repeat split; auto.
    intros [Heq|Hin]; [contradiction|contradiction].
Qed.

Lemma indexOf_none x : forall l, indexOf x l = None -> ~ In x l.
Proof.
  induction l as [|y l IH]; cbn [indexOf]; [intros _ []|].
  destruct (Nat.eqb_spec y x) as [->|Hne]; [discriminate|].
  destruct (indexOf x l); [discriminate|].
  intros _ [Heq|Hin]; [contradiction|]. apply (IH eq_refl Hin).
Qed.

Lemma indexOf_some x l : In x l -> exists i, indexOf x l = Some i.
Proof.
  intros Hin. destruct (indexOf x l) as [i|] eqn:Hi; [exists i; reflexivity|].
  destruct (indexOf_none x l Hi Hin).
Qed.

(** A method that returns, run on the forwarder behind a valid reference. *)
Lemma with_object_run r (m : Eff TunnelSocket unit) w t :
  nth_error (heap w) r = Some t ->
  with_object r m w = (completion (m t), set_heap (update r (final (m t))) w, effects (m t)).
Proof.
  intros Ht. unfold with_object. rewrite Ht. destruct (m t) as [[c t'] o]. reflexivity.
Qed.

Lemma deliver_self ev t : self (final (deliver ev t)) = self t.
Proof.
  destruct t as [r [ra rp pa de sl] cl cr [[]|] [l q ab] [[cl' cq]|] ls];
    destruct ev, sl, l; try destruct cl'; reflexivity.
Qed.

Lemma dispose_self t : self (final (TunnelSocket_dispose t)) = self t.
Proof. destruct t as [r sk cl cr [[]|] wc cn ls]; reflexivity. Qed.

(** Replacing a forwarder by one with the same reference keeps the registry
    well formed. *)
Lemma registry_ok_update w r t t' :
  registry_ok w -> nth_error (heap w) r = Some t -> self t' = self t ->
  registry_ok (set_heap (update r t') w).
Proof.
  intros (Hnd & Hin & Hself) Ht Hs. unfold registry_ok, set_heap. cbn.
  rewrite length_update. repeat split; auto.
  intros r0 t0. rewrite nth_error_update.
  destruct (Nat.eqb_spec r0 r) as [->|Hne]; [|apply Hself].
  rewrite Ht. intros Heq. inversion Heq; subst. rewrite Hs. apply (Hself r t Ht).
Qed.

Lemma length_dispose_heap refs : forall h, length (dispose_heap refs h) = length h.
Proof.
  induction refs as [|r refs IH]; intros h; [reflexivity|].
  cbn [dispose_heap fold_left].
  change (fold_left (fun h r => dispose_at r h) refs (dispose_at r h))
    with (dispose_heap refs (dispose_at r h)).
  rewrite IH. unfold dispose_at. destruct (nth_error h r); [apply length_update|reflexivity].
Qed.

Lemma registry_ok_dispose_heap refs w :
  registry_ok w -> registry_ok (set_heap (dispose_heap refs) w).
Proof.
  intros (Hnd & Hin & Hself). unfold registry_ok, set_heap. cbn.
  rewrite length_dispose_heap. repeat split; auto.
  intros r t. rewrite dispose_heap_lookup.
  destruct (existsb (Nat.eqb r) refs); [|apply Hself].
  destruct (nth_error (heap w) r) as [t0|] eqn:Ht0; cbn [option_map]; [|discriminate].
  intros Heq. inversion Heq. rewrite dispose_self. apply (Hself r t0 Ht0).
Qed.

Lemma on_tunnelSocket_close_run r w :
  on_tunnelSocket_close r w =
  match indexOf r (_openSockets (this w)) with
  | Some index =>
      (Returned tt, set_openSockets (splice1 index) w,
       [AppendLine ("[Proxy Server] client closed, connection count: "
                    ++ show_nat (length (splice1 index (_openSockets (this w)))))])
  | None => (Returned tt, w, [])
  end.
Proof.
  unfold on_tunnelSocket_close. eff.
  destruct (indexOf r (_openSockets (this w))); reflexivity.
Qed.

Lemma deliver_to_run r ev w t :
  nth_error (heap w) r = Some t ->
  let w1 := set_heap (update r (final (deliver ev t))) w in
  deliver_to r ev w =
  if existsb is_emit_close (effects (deliver ev t)) && close_listener t
  then (completion (on_tunnelSocket_close r w1), final (on_tunnelSocket_close r w1),
        (effects (deliver ev t) ++ effects (on_tunnelSocket_close r w1))%list)
  else (Returned tt, w1, effects (deliver ev t)).
Proof.
  intros Ht w1. unfold deliver_to. eff. rewrite Ht.
  rewrite (with_object_run r (deliver ev) w t Ht), deliver_returns. fold w1.
  destruct (existsb is_emit_close (effects (deliver ev t)) && close_listener t);
    [|reflexivity].
  destruct (on_tunnelSocket_close r w1) as [[c w2] o2]. reflexivity.
Qed.

Lemma deliver_to_nowhere r ev w :
  nth_error (heap w) r = None -> deliver_to r ev w = (Returned tt, w, []).
Proof. intros Ht. unfold deliver_to. eff. rewrite Ht. reflexivity. Qed.

(** The forwarder emits 'close' for the close events of its legs, and for no
    other event. *)
Lemma emits_close ev t :
  listened ev t = true ->
  existsb is_emit_close (effects (deliver ev t)) =
  match terminal ev with
  | Some NClose => true
  | _ => false
  end.
Proof.
  intros Hl. rewrite (deliver_listened ev t Hl).
  destruct t as [r sk cl cr [[]|] wc cn ls]; destruct ev; reflexivity.
Qed.

Lemma ignores_unlistened ev t :
  listened ev t = false -> deliver ev t = (Returned tt, t, []).
Proof. intros Hl. unfold deliver. eff. rewrite Hl. reflexivity. Qed.

Lemma on_server_connection_run socket w :
  exists out,
    on_server_connection socket w =
    (Returned tt,
     set_heap (fun h => (h ++ [accepted_forwarder (length (heap w)) socket (this w)])%list)
              (set_openSockets (fun l => (l ++ [length (heap w)])%list) w),
     out) /\
    sends out = [] /\ writes out = [] /\ notifications out = [].
Proof.
  destruct w as [n p h].
  unfold on_server_connection. eff. unfold with_object. cbv [modify].
  repeat (cbn [heap set_heap set_openSockets this now];
          rewrite ?update_last, ?nth_error_last; cbv beta iota zeta).
  set (t0 := set_close_listener true
               (new_TunnelSocket (length h) socket (_client p) (_publishCredential p))).
  assert (Hc : completion (TunnelSocket_connect t0) = Returned tt) by reflexivity.
  rewrite (run_eta (TunnelSocket_connect t0)), Hc. cbv beta iota zeta.
  eexists. split.
  - unfold set_heap, set_openSockets, accepted_forwarder.
    cbn [heap this now]. rewrite !update_last. reflexivity.
  - repeat split; reflexivity.
Qed.

Lemma registry_ok_disposed w : registry_ok w -> registry_ok (disposed_world w).
Proof.
  intros Hok. apply (registry_ok_dispose_heap (_openSockets (this w))) in Hok.
  exact Hok.
Qed.

Lemma registry_ok_accepted socket w :
  registry_ok w ->
  registry_ok
    (set_heap (fun h => (h ++ [accepted_forwarder (length (heap w)) socket (this w)])%list)
              (set_openSockets (fun l => (l ++ [length (heap w)])%list) w)).
Proof.
  intros (Hnd & Hin & Hself). unfold registry_ok, set_heap, set_openSockets. cbn.
  rewrite length_app. cbn [length]. repeat split.
  - apply NoDup_app; [exact Hnd | repeat constructor; intros [] |].
    intros r Hr [<-|[]]. apply Hin in Hr. lia.
  - intros r Hr. apply in_app_or in Hr as [Hr|[<-|[]]]; [apply Hin in Hr|]; lia.
  - intros r t Ht.
    destruct (Nat.lt_ge_cases r (length (heap w))) as [Hlt|Hge].
    + rewrite nth_error_app1 in Ht by exact Hlt. apply (Hself r t Ht).
    + rewrite nth_error_app2 in Ht by exact Hge.
      destruct (r - length (heap w)) as [|k] eqn:Hk.
      * cbn in Ht. inversion Ht. cbn. lia.
      * cbn in Ht. destruct k; discriminate.
Qed.

Lemma splice_removes (x : SocketRef) l i :
  NoDup l -> indexOf x l = Some i ->
  NoDup (splice1 i l) /\ ~ In x (splice1 i l) /\
  (forall y, In y (splice1 i l) -> In y l) /\
  (forall y, y <> x -> In y l -> In y (splice1 i l)) /\
  length (splice1 i l) + 1 = length l.
Proof.
  intros Hnd Hi. destruct (indexOf_split x l i Hi) as (l1 & l2 & -> & -> & Hnin).
  pose proof (NoDup_remove_1 _ _ _ Hnd) as Hnd'.
  pose proof (NoDup_remove_2 _ _ _ Hnd) as Hx.
  repeat split; auto.
  - intros y Hy. apply in_app_or in Hy as [Hy|Hy]; apply in_or_app; cbn; auto.
  - intros y Hne Hy. apply in_app_or in Hy as [Hy|[Hy|Hy]]; apply in_or_app; auto.
    congruence.
  - rewrite !length_app. cbn. lia.
Qed.

(** One event of the proxy: the registry stays well formed, the heap does
    not shrink, and no reference of the old heap enters the registry. *)
Lemma proxy_step_registry e w :
  registry_ok w ->
  completion (proxy_step e w) = Returned tt /\
  registry_ok (final (proxy_step e w)) /\
  length (heap w) <= length (heap (final (proxy_step e w))) /\
  (forall x, x < length (heap w) ->
             In x (_openSockets (this (final (proxy_step e w)))) ->
             In x (_openSockets (this w))).
Proof.
  intros Hok. destruct e as [socket|r ev|err|]; cbn [proxy_step].
  - unfold accept. eff.
    destruct (listening (_server (this w)) && server_listeners (_server (this w))).
    + destruct (on_server_connection_run socket w) as (out & -> & _). project.
      split; [reflexivity|]. split; [apply registry_ok_accepted, Hok|].
      cbn. rewrite length_app. split; [lia|].
      intros x Hx Hin. apply in_app_or in Hin as [Hin|[<-|[]]]; [exact Hin|lia].
    + project. split; [reflexivity|]. split; [exact Hok|]. split; [lia|auto].
  - destruct (nth_error (heap w) r) as [t|] eqn:Ht.
    + rewrite (deliver_to_run r ev w t Ht). cbv zeta.
      pose proof (registry_ok_update w r t (final (deliver ev t)) Hok Ht (deliver_self ev t))
        as Hok1.
      destruct (existsb is_emit_close (effects (deliver ev t)) && close_listener t).
      * rewrite on_tunnelSocket_close_run.
        cbn [set_heap this _openSockets heap].
        destruct (indexOf r (_openSockets (this w))) as [i|] eqn:Hi; project.
        -- destruct Hok1 as (Hnd & Hin & Hself).
           destruct (splice_removes r _ i Hnd Hi) as (Hnd' & _ & Hsub & _).
           split; [reflexivity|]. split.
           ++ repeat split; auto.
           ++ cbn. rewrite length_update. split; [lia|]. intros x _ Hx. apply Hsub, Hx.
        -- split; [reflexivity|]. split; [exact Hok1|].
           cbn. rewrite length_update. split; [lia|auto].
      * project. split; [reflexivity|]. split; [exact Hok1|].
        cbn. rewrite length_update. split; [lia|auto].
    + rewrite (deliver_to_nowhere r ev w Ht). project. split; [reflexivity|]. split; [exact Hok|]. split; [lia|auto].
  - eff. destruct (server_listeners (_server (this w))).
    + unfold on_server_error. eff. rewrite TunnelProxy_dispose_closed. project.
      split; [reflexivity|]. split; [apply registry_ok_disposed, Hok|].
      cbn. rewrite length_dispose_heap. split; [lia|auto].
    + project. split; [reflexivity|]. split; [exact Hok|]. split; [lia|auto].
  - rewrite TunnelProxy_dispose_closed. project.
    split; [reflexivity|]. split; [apply registry_ok_disposed, Hok|].
    cbn. rewrite length_dispose_heap. split; [lia|auto].
Qed.

Lemma proxy_run_cons e rest w :
  completion (proxy_step e w) = Returned tt ->
  proxy_run (e :: rest) w =
  (completion (proxy_run rest (final (proxy_step e w))),
   final (proxy_run rest (final (proxy_step e w))),
   (effects (proxy_step e w) ++ effects (proxy_run rest (final (proxy_step e w))))%list).
Proof.
  intros Hc. exact (bind_returned (proxy_step e) (fun _ => proxy_run rest) w tt Hc).
Qed.



(** X7: a forwarder that has left the registry never comes back: clients
    arriving later get fresh references, and no listener re-inserts an old
    one. *)
Theorem X7_removed_forwarder_stays_removed :
  forall (es : list ProxyEvent) (w : World) (r : SocketRef),
    registry_ok w ->
    r < length (heap w) ->
    ~ In r (_openSockets (this w)) ->
    ~ In r (_openSockets (this (final (proxy_run es w)))).
Proof.
  induction es as [|e rest IH]; intros w r Hok Hr Hnin; [exact Hnin|].
  destruct (proxy_step_registry e w Hok) as (Hc & Hok' & Hlen & Hold).
  rewrite (proxy_run_cons e rest w Hc). project.
  apply IH; [exact Hok' | lia |]. intros Hin. apply Hnin, (Hold r Hr Hin).
Qed.

Lemma X7_removed_forwarder_stays_removed_witness :
  let es := [ClientArrives sample_socket; LegEvent 0 ConnectionClose;
             LegEvent 1 ClientConnect; ClientArrives sample_socket] in
  ~ In 0 (_openSockets (this (final (proxy_run es closed_client_world)))).
Proof.
  intros es.
  apply (X7_removed_forwarder_stays_removed es closed_client_world 0).
  - split; [constructor|]. split; [intros r []|].
    intros [|r] t Ht; [inversion Ht; reflexivity | destruct r; discriminate Ht].
  - apply le_n.
  - intros [].
Defined.

(** X5: a connection arriving at the listening server gets a forwarder of
    its own: the forwarder is appended to the heap and its fresh reference to
    the end of the registry, the forwarders already there are untouched; the
    new forwarder is subscribed to by the proxy, has its listeners installed
    and its socket paused, holds no connection yet, and has asked for the
    WebSocket connection to the tunnel endpoint of the proxy's host with the
    proxy's credentials and the three fixed headers. *)
Theorem X5_accept_registers_a_connecting_forwarder :
  forall (w : World) (socket : Socket),
    listening (_server (this w)) = true ->
    server_listeners (_server (this w)) = true ->
    let r := accept socket w in
    let fw := accepted_forwarder (length (heap w)) socket (this w) in
    completion r = Returned tt /\
    _openSockets (this (final r)) = (_openSockets (this w) ++ [length (heap w)])%list /\
    heap (final r) = (heap w ++ [fw])%list /\
    self fw = length (heap w) /\
    close_listener fw = true /\
    listened SocketClose fw = true /\ listened ClientConnect fw = true /\
    paused (_socket fw) = true /\
    _wsConnection fw = None /\
    connect_request (_wsClient fw) =
      Some (mkConnectRequest
              ("wss://" ++ kuduHostName (_client (this w)) ++ "/AppServiceTunnel/Tunnel.ashx")
              [("User-Agent", "vscode-azuretools"); ("Cache-Control", "no-cache");
               ("Pragma", "no-cache")]
              (publishingUserName (_publishCredential (this w)) ++ ":"
               ++ publishingPassword (_publishCredential (this w)))).
Proof.
  intros w socket Hl Hs r fw. subst r. unfold accept. eff. rewrite Hl, Hs. cbn [andb].
  destruct (on_server_connection_run socket w) as (out & -> & _). project.
  repeat split; reflexivity.
Qed.

Lemma X5_accept_registers_a_connecting_forwarder_witness :
  _openSockets (this (final (accept sample_socket two_clients_world))) = [0; 1; 2] /\
  length (heap (final (accept sample_socket two_clients_world))) = 3.
Proof.
  pose proof (X5_accept_registers_a_connecting_forwarder two_clients_world sample_socket
                eq_refl eq_refl) as (_ & Hreg & Hheap & _).
  split; [exact Hreg|]. rewrite Hheap. reflexivity.
Defined.

(** X8: when a leg of a registered forwarder closes (the local socket or
    the WebSocket connection raises 'close'), the forwarder is disposed and
    exactly its reference leaves the registry: the registry is one shorter,
    and every other reference stays. *)
Theorem X8_close_removes_the_forwarder :
  forall (w : World) (r : SocketRef) (t : TunnelSocket) (ev : Event),
    registry_ok w ->
    In r (_openSockets (this w)) ->
    nth_error (heap w) r = Some t ->
    listened ev t = true ->
    close_listener t = true ->
    terminal ev = Some NClose ->
    let w' := final (deliver_to r ev w) in
    ~ In r (_openSockets (this w')) /\
    (forall x, x <> r -> (In x (_openSockets (this w')) <-> In x (_openSockets (this w)))) /\
    length (_openSockets (this w')) + 1 = length (_openSockets (this w)) /\
    nth_error (heap w') r = Some (final (TunnelSocket_dispose t)) /\
    is_disposed (final (TunnelSocket_dispose t)) = true.
Proof.
  intros w r t ev (Hnd & Hin & Hself) Hr Ht Hl Hsub Hterm w'. subst w'.
  rewrite (deliver_to_run r ev w t Ht). cbv zeta.
  rewrite (emits_close ev t Hl), Hterm, Hsub. cbn [andb].
  rewrite on_tunnelSocket_close_run. cbn [set_heap this _openSockets].
  destruct (indexOf_some r _ Hr) as (i & Hi). rewrite Hi. project.
  destruct (splice_removes r _ i Hnd Hi) as (_ & Hnin & Hsubset & Hkeep & Hlen).
  cbn [set_openSockets this _openSockets heap].
  split; [exact Hnin|]. split.
  { intros x Hx. split; [apply Hsubset | apply Hkeep, Hx]. }
  split; [exact Hlen|]. split; [|apply dispose_disposes].
  cbn [heap set_heap].
  rewrite nth_error_update, Nat.eqb_refl, Ht, (deliver_listened ev t Hl).
  destruct (terminal_listener ev NClose t Hterm) as (_ & -> & _). reflexivity.
Qed.

Lemma X8_close_removes_the_forwarder_witness :
  let w' := final (deliver_to 0 ConnectionClose two_clients_world) in
  ~ In 0 (_openSockets (this w')) /\
  length (_openSockets (this w')) + 1 = length (_openSockets (this two_clients_world)).
Proof.
  intros w'.
  destruct (nth_error (heap two_clients_world) 0) as [t|] eqn:Ht; [|discriminate Ht].
  assert (Hok : registry_ok two_clients_world).
  { repeat split.
    - repeat constructor; cbn; intuition discriminate.
    - intros r [<-|[<-|[]]]; cbn; lia.
    - intros [|[|r]] t0 Ht0; cbn in Ht0; try (destruct r; discriminate Ht0);
      inversion Ht0; reflexivity. }
  pose proof (X8_close_removes_the_forwarder two_clients_world 0 t ConnectionClose Hok
                (or_introl eq_refl) Ht) as Hx.
  cbn in Ht. inversion Ht as [Heq]. rewrite <- Heq in Hx.
  destruct (Hx eq_refl eq_refl eq_refl) as (Hnin & _ & Hlen & _).
  split; [exact Hnin | exact Hlen].
Defined.

(** X9: when a leg of a registered forwarder raises 'error' (or the connect
    attempt fails), the forwarder is disposed but stays in the registry: the
    proxy subscribes to 'close' only, and the registry is as it was. *)
Theorem X9_error_leaves_the_forwarder_registered :
  forall (w : World) (r : SocketRef) (t : TunnelSocket) (ev : Event) (err : Thrown),
    nth_error (heap w) r = Some t ->
    listened ev t = true ->
    terminal ev = Some (NError err) ->
    let w' := final (deliver_to r ev w) in
    _openSockets (this w') = _openSockets (this w) /\
    nth_error (heap w') r = Some (final (TunnelSocket_dispose t)) /\
    is_disposed (final (TunnelSocket_dispose t)) = true /\
    notifications (effects (deliver_to r ev w)) = [NError err].
Proof.
  intros w r t ev err Ht Hl Hterm w'. subst w'.
  rewrite (deliver_to_run r ev w t Ht). cbv zeta.
  rewrite (emits_close ev t Hl), Hterm. cbn [andb]. project.
  rewrite (deliver_listened ev t Hl).
  destruct (terminal_listener ev (NError err) t Hterm) as (_ & Hf & Ho & _).
  rewrite Hf, Ho. cbn [set_heap this _openSockets heap].
  rewrite nth_error_update, Nat.eqb_refl, Ht, dispose_disposes. auto.
Qed.

Lemma X9_error_leaves_the_forwarder_registered_witness :
  _openSockets (this (final (deliver_to 0 (SocketError (Foreign connection_refused))
                                        two_clients_world))) = [0; 1].
Proof.
  destruct (nth_error (heap two_clients_world) 0) as [t|] eqn:Ht; [|discriminate Ht].
  pose proof (X9_error_leaves_the_forwarder_registered two_clients_world 0 t
                (SocketError (Foreign connection_refused)) (Foreign connection_refused) Ht)
    as Hx.
  cbn in Ht. inversion Ht as [Heq]. rewrite <- Heq in Hx.
  exact (proj1 (Hx eq_refl eq_refl)).
Defined.

(* ================================================================== *)
(** ** Further properties of the polling *)

Lemma ready_turn {H : Host} fuel env i start w :
  (now w <? start + timeoutMs)%N = true ->
  classify (completion (checkTunnelStatus (env i) w)) = Some Ready ->
  retryLoop (S fuel) env i start w =
  (Returned tt, final (checkTunnelStatus (env i) w), effects (checkTunnelStatus (env i) w)).
Proof.
  intros Hnow Hready. rewrite (retryLoop_turn fuel env i start w Hnow). cbv zeta.
  destruct (completion (checkTunnelStatus (env i) w)) as [[]|e|];
    cbn [classify] in Hready; try discriminate; [reflexivity|].
  destruct (instanceof_Retryable e); discriminate.
Qed.

(** The requests and timers of the wait, seen from a head it reaches. *)
Lemma reaches_trace {H : Host} env start w0 i w :
  reaches env start w0 i w ->
  settings w = settings w0 /\
  forall fuel,
    polling_effects (effects (retryLoop (i + fuel) env 0 start w0)) =
    (prefix_requests (this w0) env i
     ++ polling_effects (effects (retryLoop fuel env i start w)))%list.
Proof.
  induction 1 as [|i w Hreach [Hset IH] Hnow Hretry].
  - split; [reflexivity|]. intros fuel. reflexivity.
  - split; [rewrite next_turn_settings; exact Hset|].
    intros fuel. specialize (IH (S fuel)). rewrite Nat.add_succ_r in IH.
    cbn [Nat.add]. rewrite IH.
    rewrite (retryLoop_turn fuel env i start w Hnow). cbv zeta.
    destruct (completion (checkTunnelStatus (env i) w)) as [[]|error|];
      cbn [classify] in Hretry; try discriminate.
    destruct (instanceof_Retryable error); [|discriminate]. project.
    rewrite !polling_effects_app, check_polling.
    destruct (delay_polls pollingIntervalMs (delay_late (env i))
                          (dispose_during_delay (env i))
                          (final (checkTunnelStatus (env i) w))) as (_ & _ & ->).
    rewrite (check_requests_settings (env i) w w0 Hset).
    cbn [prefix_requests]. unfold turn_requests. rewrite <- !app_assoc. reflexivity.
Qed.

(** Answers that ask for a retry, each turn beginning before the deadline,
    lead the loop to the head of the next turn. *)
Lemma retries_reach {H : Host} env w0 :
  forall i,
    (forall j, j < i ->
               status_outcome (_isSsh (this w0)) (env j) = Threw RetryableTunnelStatusError) ->
    (forall j, j < i -> (elapsed env j < timeoutMs)%N) ->
    exists w,
      reaches env (now w0) w0 i w /\
      now w = (now w0 + elapsed env i)%N /\
      settings w = settings w0.
Proof.
  induction i as [|i IH]; intros Hretry Hbefore.
  - exists w0. split; [apply reaches_start|]. cbn. split; [lia|reflexivity].
  - destruct IH as (w & Hreach & Hnow & Hset); [auto|auto|].
    assert (Hssh : _isSsh (this w) = _isSsh (this w0)).
    { unfold settings in Hset. inversion Hset. reflexivity. }
    eexists. split; [|split].
    + apply (reaches_retry env (now w0) w0 i w Hreach).
      * apply N.ltb_lt. rewrite Hnow. specialize (Hbefore i ltac:(lia)). lia.
      * rewrite check_completion, Hssh, (Hretry i ltac:(lia)). reflexivity.
    + rewrite next_turn_now, Hnow. cbn [elapsed]. lia.
    + rewrite next_turn_settings. exact Hset.
Qed.

Lemma ready_outcome {H : Host} t w :
  classify (completion (checkTunnelStatus t w)) = Some Ready ->
  status_outcome (_isSsh (this w)) t = Returned tt /\ pinged t = false.
Proof.
  rewrite check_completion. unfold status_outcome, pinged.
  destruct (status_response t) as [err|body err|body st]; cbn [classify]; try discriminate.
  destruct (state st =? STARTED) eqn:Hs.
  - rewrite (not_stopped _ (or_introl Hs)).
    destruct (_ || _); [discriminate|].
    destruct (canReachPort st); [auto|discriminate].
  - destruct (state st =? STARTING); [discriminate|].
    destruct (state st =? STOPPED); [destruct (ping_response t)|]; discriminate.
Qed.

(** X10: when the remote answers the first [i] polls with answers that ask
    for a retry (STARTING, STOPPED with the ping answered, STARTED on the
    wrong class of port) and the next poll, begun before the deadline, with a
    Ready answer, the wait resolves.  Its requests are, for each of the [i]
    turns, the status request, the wake ping if the answer was STOPPED, and
    the timer of 5000 ms, and then the one last status request; it ends when
    that request is answered. *)
Theorem X10_ready_after_retries_resolves :
  forall (H : Host) (env : nat -> PollTurn) (w0 : World) (i fuel : nat),
    (forall j w, j < i -> _isSsh (this w) = _isSsh (this w0) ->
                 classify (completion (checkTunnelStatus (env j) w)) = Some Retryable) ->
    (forall w, _isSsh (this w) = _isSsh (this w0) ->
               classify (completion (checkTunnelStatus (env i) w)) = Some Ready) ->
    (elapsed env i < timeoutMs)%N ->
    let r := checkTunnelStatusWithRetry (i + S fuel) env w0 in
    completion r = Returned tt /\
    polling_effects (effects r) =
      (prefix_requests (this w0) env i ++ [status_request (this w0)])%list /\
    now (final r) = (now w0 + elapsed env i + status_ms (env i))%N.
Proof.
  intros H env w0 i fuel Hretry Hready Hdeadline r. subst r.
  destruct (retries_reach env w0 i) as (w & Hreach & Hnow & Hset).
  { intros j Hj. apply (retryable_outcome (env j) w0), Hretry; [exact Hj|reflexivity]. }
  { intros j Hj. pose proof (elapsed_mono env j i ltac:(lia)). lia. }
  assert (Hssh : _isSsh (this w) = _isSsh (this w0)).
  { unfold settings in Hset. inversion Hset. reflexivity. }
  assert (Hbefore : (now w <? now w0 + timeoutMs)%N = true).
  { apply N.ltb_lt. rewrite Hnow. lia. }
  specialize (Hready w Hssh).
  destruct (ready_outcome (env i) w Hready) as (_ & Hping).
  rewrite checkTunnelStatusWithRetry_loop.
  destruct (reaches_run env (now w0) w0 i w Hreach (S fuel)) as (pre & Hrun & _).
  destruct (reaches_trace env (now w0) w0 i w Hreach) as (_ & Htrace).
  rewrite (Htrace (S fuel)). rewrite Hrun.
  rewrite (ready_turn fuel env i (now w0) w Hbefore Hready). project.
  split; [reflexivity|]. split.
  - rewrite check_polling, (check_requests_settings (env i) w w0 Hset).
    unfold check_requests. rewrite Hping. reflexivity.
  - rewrite check_final, checked_now, Hping, Hnow. lia.
Qed.

Lemma X10_ready_after_retries_resolves_witness :
  let r := @checkTunnelStatusWithRetry plainHost 4 waking_env (sample_world false) in
  let poll := status_request (this (sample_world false)) in
  let ping := GetPing "https://app.azurewebsites.net" in
  completion r = Returned tt /\
  polling_effects (effects r) =
    [poll; ping; Delay 5000; poll; ping; Delay 5000; poll; Delay 5000; poll] /\
  now (final r) = 16000%N.
Proof.
  intros r poll ping.
  apply (X10_ready_after_retries_resolves plainHost waking_env (sample_world false) 3 0).
  - intros [|[|[|j]]] w Hj _; try lia; rewrite check_completion; reflexivity.
  - intros w Hs. rewrite check_completion, Hs. reflexivity.
  - reflexivity.
Defined.

(** The loop from a head that is at least [i] intervals after the start:
    it settles, after at most [48 - i] further polls. *)
Lemma loop_settles {H : Host} env start :
  forall fuel i w,
    (start + pollingIntervalMs * N.of_nat i <= now w)%N ->
    i <= 48 -> 48 < fuel + i ->
    let r := retryLoop fuel env i start w in
    completion r <> Pending /\
    polls (effects r) + i <= 48 /\
    delays (effects r) <= polls (effects r) <= delays (effects r) + 1.
Proof.
  induction fuel as [|fuel IH]; intros i w Hnow Hi Hfuel; [lia|].
  cbv zeta. destruct (now w <? start + timeoutMs)%N eqn:Hdeadline.
  - apply N.ltb_lt in Hdeadline as Hlt.
    assert (Hi' : i < 48)
      by (unfold timeoutMs, timeoutSeconds, pollingIntervalMs in *; lia).
    rewrite (retryLoop_turn fuel env i start w Hdeadline). cbv zeta.
    destruct (check_polls (env i) w) as [Hp Hd].
    rewrite check_completion.
    destruct (status_outcome (_isSsh (this w)) (env i)) as [[]|error|] eqn:Hout; project.
    + rewrite Hp, Hd. split; [discriminate|lia].
    + destruct (instanceof_Retryable error); project.
      * destruct (delay_polls pollingIntervalMs (delay_late (env i))
                              (dispose_during_delay (env i))
                              (final (checkTunnelStatus (env i) w))) as (Hp2 & Hd2 & _).
        rewrite !polls_app, !delays_app, Hp, Hd, Hp2, Hd2.
        destruct (IH (S i) (final (delay pollingIntervalMs (delay_late (env i))
                                          (dispose_during_delay (env i))
                                          (final (checkTunnelStatus (env i) w)))))
          as (Hc & Hpolls & Hdelays); [|lia|lia|].
        { rewrite next_turn_now. unfold turn_ms. lia. }
        split; [exact Hc|lia].
      * rewrite Hp, Hd. split; [discriminate|lia].
    + pose proof (check_completion (env i) w) as Hcc. rewrite Hout in Hcc.
      destruct (checkTunnelStatus_run (env i) w) as (out & Hrun & _).
      rewrite Hrun in Hcc. unfold status_outcome in Hout.
      exfalso. clear -Hout.
      destruct (status_response (env i)); try discriminate.
      repeat match type of Hout with
             | (if ?b then _ else _) = _ => destruct b
             | match ?p with PingResponded _ => _ | PingRejected _ => _ end = _ => destruct p
             end; discriminate.
  - rewrite (retryLoop_deadline fuel env i start w Hdeadline). project.
    split; [discriminate|]. cbn. lia.
Qed.

(** More fuel does not change a wait that has settled. *)
Lemma loop_fuel {H : Host} env start :
  forall fuel i w,
    completion (retryLoop fuel env i start w) <> Pending ->
    retryLoop (S fuel) env i start w = retryLoop fuel env i start w.
Proof.
  induction fuel as [|fuel IH]; intros i w Hc; [cbn in Hc; contradiction|].
  destruct (now w <? start + timeoutMs)%N eqn:Hdeadline.
  - rewrite (retryLoop_turn (S fuel) env i start w Hdeadline).
    rewrite (retryLoop_turn fuel env i start w Hdeadline) in Hc |- *. cbv zeta in *.
    destruct (completion (checkTunnelStatus (env i) w)) as [[]|error|]; try reflexivity.
    destruct (instanceof_Retryable error); [|reflexivity].
    revert Hc. project. intros Hc. rewrite (IH _ _ Hc). reflexivity.
  - rewrite !(retryLoop_deadline _ env i start w Hdeadline). reflexivity.
Qed.

(** X11: whatever the remote answers and however long the requests take,
    the wait settles: it makes at most 48 polls (a poll is made only less
    than 240 s after the start, and consecutive polls are at least 5 s
    apart), and the timers it sets are as many as its polls or one fewer.
    The result is the same for every bound on the unfolding above 48. *)
Theorem X11_wait_settles_within_48_polls :
  forall (H : Host) (env : nat -> PollTurn) (w : World) (fuel : nat),
    48 < fuel ->
    let r := checkTunnelStatusWithRetry fuel env w in
    completion r <> Pending /\
    polls (effects r) <= 48 /\
    delays (effects r) <= polls (effects r) <= delays (effects r) + 1 /\
    r = checkTunnelStatusWithRetry 49 env w.
Proof.
  intros H env w fuel Hfuel r. subst r. rewrite !checkTunnelStatusWithRetry_loop.
  destruct (loop_settles env (now w) fuel 0 w) as (Hc & Hp & Hd);
    [cbn; lia | lia | lia |].
  split; [exact Hc|]. split; [lia|]. split; [exact Hd|].
  clear Hc Hp Hd. induction Hfuel as [|fuel Hle IH]; [reflexivity|].
  rewrite loop_fuel; [exact IH|].
  apply (loop_settles env (now w) fuel 0 w); [cbn; lia | lia | lia].
Qed.

Lemma X11_wait_settles_within_48_polls_witness :
  let r := @checkTunnelStatusWithRetry plainHost 100 slow_starting_env (sample_world false) in
  completion r <> Pending /\ polls (effects r) <= 48.
Proof.
  intros r.
  pose proof (X11_wait_settles_within_48_polls plainHost slow_starting_env
                (sample_world false) 100 ltac:(lia)) as (Hc & Hp & _).
  split; [exact Hc | exact Hp].
Defined.

Lemma check_requests_known t w w0 :
  settings w = settings w0 ->
  Forall (fun e => e = status_request (this w0)
                   \/ e = GetPing (defaultHostUrl (_client (this w0))))
         (check_requests (this w) t).
Proof.
  intros Hset. rewrite (check_requests_settings t w w0 Hset).
  unfold check_requests, status_request.
  destruct (pinged t).
  - constructor; [left; reflexivity|]. constructor; [right; reflexivity|constructor].
  - constructor; [left; reflexivity|constructor].
Qed.

(** X12: the wait talks to two addresses only.  Whatever the answers, and
    whether or not dispose() is called meanwhile, every request of the wait
    is the status request (the status URI of the proxy's host, with the
    User-Agent and the publishing credentials of the proxy) or the ping of
    the application's default URL, and every timer is one of 5000 ms. *)
Theorem X12_wait_makes_only_its_own_requests :
  forall (H : Host) (fuel : nat) (env : nat -> PollTurn) (w : World),
    Forall (fun e => e = status_request (this w)
                     \/ e = GetPing (defaultHostUrl (_client (this w)))
                     \/ e = Delay 5000)
           (polling_effects (effects (checkTunnelStatusWithRetry fuel env w))).
Proof.
  intros H fuel env w0. rewrite checkTunnelStatusWithRetry_loop.
  generalize (now w0) at 1 as start. intros start.
  assert (Hgen : forall fuel i w,
             settings w = settings w0 ->
             Forall (fun e => e = status_request (this w0)
                              \/ e = GetPing (defaultHostUrl (_client (this w0)))
                              \/ e = Delay 5000)
                    (polling_effects (effects (retryLoop fuel env i start w)))).
  { clear fuel. induction fuel as [|fuel IH]; intros i w Hset; [constructor|].
    assert (Hcheck : Forall (fun e => e = status_request (this w0)
                                      \/ e = GetPing (defaultHostUrl (_client (this w0)))
                                      \/ e = Delay 5000)
                            (polling_effects (effects (checkTunnelStatus (env i) w)))).
    { rewrite check_polling.
      eapply Forall_impl; [|apply (check_requests_known (env i) w w0 Hset)].
      cbv beta. intros e [He|He]; auto. }
    destruct (now w <? start + timeoutMs)%N eqn:Hdeadline.
    - rewrite (retryLoop_turn fuel env i start w Hdeadline). cbv zeta.
      destruct (completion (checkTunnelStatus (env i) w)) as [[]|error|]; project;
        try exact Hcheck.
      destruct (instanceof_Retryable error); project; [|exact Hcheck].
      rewrite !polling_effects_app.
      destruct (delay_polls pollingIntervalMs (delay_late (env i))
                            (dispose_during_delay (env i))
                            (final (checkTunnelStatus (env i) w))) as (_ & _ & ->).
      apply Forall_app. split; [exact Hcheck|]. apply Forall_app. split.
      + constructor; [right; right; reflexivity|constructor].
      + apply IH. rewrite next_turn_settings. exact Hset.
    - rewrite (retryLoop_deadline fuel env i start w Hdeadline). constructor. }
  apply Hgen. reflexivity.
Qed.

(** X13: the wake ping is sent for the state STOPPED and for nothing else:
    a check whose status decodes with state STOPPED sends exactly one ping,
    to the default URL of the application; a check whose request or decoding
    fails, or whose status has any other state, sends none. *)
Theorem X13_ping_only_when_stopped :
  forall (H : Host) (t : PollTurn) (w : World),
    (forall body tunnelStatus,
        status_response t = BodyDecoded body tunnelStatus ->
        state tunnelStatus = STOPPED ->
        filter is_ping (effects (checkTunnelStatus t w))
        = [GetPing (defaultHostUrl (_client (this w)))]) /\
    ((forall body tunnelStatus,
         status_response t = BodyDecoded body tunnelStatus ->
         state tunnelStatus <> STOPPED) ->
     filter is_ping (effects (checkTunnelStatus t w)) = []).
Proof.
  intros H t w.
  assert (Hping : filter is_ping (effects (checkTunnelStatus t w))
                  = filter is_ping (check_requests (this w) t)).
  { rewrite <- check_polling, filter_polling; [reflexivity|].
    intros e He. unfold is_polling. rewrite He. destruct (is_poll e); reflexivity. }
  rewrite Hping. unfold check_requests, pinged. split.
  - intros body st -> ->. reflexivity.
  - intros Hother. destruct (status_response t) as [err|body err|body st]; try reflexivity.
    specialize (Hother body st eq_refl). apply String.eqb_neq in Hother.
    rewrite Hother. reflexivity.
Qed.

Lemma X13_ping_only_when_stopped_witness :
  filter is_ping (effects (@checkTunnelStatus plainHost (waking_env 0) (sample_world false)))
  = [GetPing "https://app.azurewebsites.net"] /\
  filter is_ping (effects (@checkTunnelStatus plainHost (waking_env 2) (sample_world false)))
  = [].
Proof.
  split.
  - exact (proj1 (X13_ping_only_when_stopped plainHost (waking_env 0) (sample_world false))
                 "" (sample_status STOPPED 2222 true) eq_refl eq_refl).
  - apply (proj2 (X13_ping_only_when_stopped plainHost (waking_env 2) (sample_world false))).
    intros body st Hr. inversion Hr. discriminate.
Defined.

(* ================================================================== *)
(** ** Errors of the server *)

(** X14: an 'error' of the server disposes the whole proxy: the listener
    logs the error and runs dispose(), so that every registered forwarder is
    disposed and the server is closed, the registry being left as it is.
    When the error answers listen() during startup, setupTunnelServer rejects
    with that very error after the teardown, the server neither bound nor
    waiting to listen. *)
Theorem X14_server_error_disposes_the_proxy :
  forall (w : World) (err : ForeignError),
    let r := on_server_error err w in
    let s := setupTunnelServer (ListenError err) w in
    completion r = Returned tt /\
    final r = final (TunnelProxy_dispose w) /\
    hd_error (effects r)
    = Some (AppendLine ("[Proxy Server] server error: " ++ toString (Foreign err))) /\
    _openSockets (this (final r)) = _openSockets (this w) /\
    (forall ref t,
        In ref (_openSockets (this w)) -> nth_error (heap w) ref = Some t ->
        nth_error (heap (final r)) ref = Some (final (TunnelSocket_dispose t)) /\
        nth_error (heap (final s)) ref = Some (final (TunnelSocket_dispose t))) /\
    completion s = Threw (Foreign err) /\
    listening (_server (this (final s))) = false /\
    listen_request (_server (this (final s))) = None /\
    server_listeners (_server (this (final s))) = true.
Proof.
  intros w err r s. subst r s.
  unfold setupTunnelServer, on_server_error. eff.
  rewrite !TunnelProxy_dispose_closed. eff. project.
  split; [reflexivity|]. split; [reflexivity|]. split; [reflexivity|].
  split; [reflexivity|]. split; [|repeat split; reflexivity].
  intros ref t Hin Ht.
  assert (Hd : nth_error (dispose_heap (_openSockets (this w)) (heap w)) ref
               = Some (final (TunnelSocket_dispose t))).
  { rewrite dispose_heap_lookup, (existsb_ref _ _ Hin), Ht. reflexivity. }
  split; exact Hd.
Qed.

Lemma X14_server_error_disposes_the_proxy_witness :
  (exists t, nth_error (heap (final (on_server_error connection_refused two_clients_world))) 1
             = Some t /\ is_disposed t = true) /\
  completion (setupTunnelServer (ListenError connection_refused) two_clients_world)
  = Threw (Foreign connection_refused).
Proof.
  destruct (X14_server_error_disposes_the_proxy two_clients_world connection_refused)
    as (_ & _ & _ & _ & Hall & Hthrows & _).
  split; [|exact Hthrows].
  destruct (nth_error (heap two_clients_world) 1) as [t|] eqn:Ht; [|discriminate Ht].
  exists (final (TunnelSocket_dispose t)).
  split; [|apply dispose_disposes].
  destruct (Hall 1 t (or_intror (or_introl eq_refl)) Ht) as [Hr _]. exact Hr.
Defined.

(* ================================================================== *)
(** ** isAncestor *)

Lemma prefix_app a : forall b s, prefix (a ++ b) (a ++ s) = prefix b s.
Proof.
  induction a as [|c a IH]; intros b s; [reflexivity|].
  cbn. destruct (ascii_dec c c) as [_|Hne]; [apply IH|contradiction].
Qed.

Lemma prefix_split a : forall b, prefix a b = true <-> exists rest, b = a ++ rest.
Proof.
  induction a as [|c a IH]; intros b.
  - split; [intros _; exists b; reflexivity|intros _; destruct b; reflexivity].
  - destruct b as [|d b]; cbn.
    + split; [discriminate|intros (rest & Hr); discriminate].
    + destruct (ascii_dec c d) as [->|Hne].
      * rewrite IH. split; intros (rest & Hr); exists rest; [rewrite Hr|inversion Hr];
          reflexivity.
      * split; [discriminate|]. intros (rest & Hr). cbn in Hr. inversion Hr. congruence.
Qed.

Lemma append_empty s : s ++ "" = s.
Proof. induction s as [|c s IH]; [reflexivity|]. cbn. rewrite IH. reflexivity. Qed.

Lemma append_assoc (a b c : string) : (a ++ b) ++ c = a ++ (b ++ c).
Proof. induction a as [|x a IH]; [reflexivity|]. cbn. rewrite IH. reflexivity. Qed.

(** X15: isAncestor holds exactly for a parent item whose id, followed by a
    slash, begins the searched id.  So an item is never an ancestor of its
    own id, and an item whose id merely begins the searched id, the next
    character not being the slash, is not taken for an ancestor: the item
    test is no ancestor of test1/child. *)
Theorem X15_isAncestor_needs_the_slash :
  (forall treeItem id,
      isAncestor treeItem id = true <->
      isAzExtParentTreeItem treeItem = true /\
      exists rest, id = fullId treeItem ++ "/" ++ rest) /\
  (forall treeItem, isAncestor treeItem (fullId treeItem) = false) /\
  (forall treeItem c rest,
      c <> "/"%char ->
      isAncestor treeItem (fullId treeItem ++ String c rest) = false).
Proof.
  split; [|split].
  - intros t id. unfold isAncestor. rewrite andb_true_iff, prefix_split.
    split; intros [Ha Hb]; split; auto; destruct Ha as (rest & Hr) || destruct Hb as (rest & Hr);
      exists rest; rewrite Hr; [apply append_assoc | symmetry; apply append_assoc].
  - intros t. unfold isAncestor.
    rewrite <- (append_empty (fullId t)) at 2. rewrite prefix_app. reflexivity.
  - intros t c rest Hc. unfold isAncestor. rewrite prefix_app. cbn [prefix].
    destruct (ascii_dec "/" c) as [Heq|_]; [congruence|reflexivity].
Qed.

Lemma X15_isAncestor_needs_the_slash_witness :
  isAncestor (mkTreeItem "db/test" true) "db/test1/child" = false /\
  isAncestor (mkTreeItem "db/test" true) "db/test/child" = true.
Proof.
  split.
  - apply (proj2 (proj2 X15_isAncestor_needs_the_slash) (mkTreeItem "db/test" true)
                 "1"%char "/child"). discriminate.
  - apply (proj1 X15_isAncestor_needs_the_slash (mkTreeItem "db/test" true) "db/test/child").
    split; [reflexivity|]. exists "child". reflexivity.
Defined.

(* ================================================================== *)
(** ** The wait and the proxy *)

Lemma undisturbed_check {H : Host} t w :
  let w' := final (checkTunnelStatus (undisturbed t) w) in
  this w' = this w /\ heap w' = heap w /\ (now w <= now w')%N.
Proof.
  cbv zeta. rewrite check_final, checked_now. unfold checked_world, suspended.
  cbn [undisturbed dispose_during_status dispose_during_ping status_ms ping_ms].
  destruct (pinged (undisturbed t)); cbn; repeat split; lia.
Qed.

Lemma undisturbed_delay t w :
  let w' := final (delay pollingIntervalMs (delay_late (undisturbed t))
                         (dispose_during_delay (undisturbed t)) w) in
  this w' = this w /\ heap w' = heap w /\ (now w <= now w')%N.
Proof.
  cbv zeta.
  destruct (delay_run pollingIntervalMs (delay_late (undisturbed t))
                      (dispose_during_delay (undisturbed t)) w) as (out & -> & _).
  project. cbn. repeat split; lia.
Qed.

Lemma undisturbed_loop {H : Host} env start :
  forall fuel i w,
    let r := retryLoop fuel (fun j => undisturbed (env j)) i start w in
    this (final r) = this w /\ heap (final r) = heap w /\ (now w <= now (final r))%N.
Proof.
  induction fuel as [|fuel IH]; intros i w; [cbn; repeat split; lia|].
  cbv zeta. destruct (now w <? start + timeoutMs)%N eqn:Hdeadline.
  - rewrite (retryLoop_turn fuel _ i start w Hdeadline). cbv zeta.
    destruct (undisturbed_check (env i) w) as (Ht & Hh & Hn).
    destruct (completion (checkTunnelStatus (undisturbed (env i)) w)) as [[]|e|];
      project; auto.
    destruct (instanceof_Retryable e); project; auto.
    destruct (undisturbed_delay (env i) (final (checkTunnelStatus (undisturbed (env i)) w)))
      as (Ht2 & Hh2 & Hn2).
    destruct (IH (S i)
                 (final (delay pollingIntervalMs (delay_late (undisturbed (env i)))
                               (dispose_during_delay (undisturbed (env i)))
                               (final (checkTunnelStatus (undisturbed (env i)) w)))))
      as (Ht3 & Hh3 & Hn3).
    rewrite Ht3, Hh3, Ht2, Hh2, Ht, Hh. repeat split; lia.
  - rewrite (retryLoop_deadline fuel _ i start w Hdeadline). project. repeat split; lia.
Qed.

(** X16: the wait itself leaves the proxy alone.  When the owner does not
    call dispose() meanwhile, the proxy object and its forwarders are after
    the wait what they were before it, however the wait ends; only time has
    passed. *)
Theorem X16_wait_leaves_the_proxy_unchanged :
  forall (H : Host) (fuel : nat) (env : nat -> PollTurn) (w : World),
    let r := checkTunnelStatusWithRetry fuel (fun i => undisturbed (env i)) w in
    this (final r) = this w /\ heap (final r) = heap w /\ (now w <= now (final r))%N.
Proof.
  intros H fuel env w. cbv zeta. rewrite checkTunnelStatusWithRetry_loop.
  apply undisturbed_loop.
Qed.

Lemma setup_installs_listeners outcome w :
  server_listeners (_server (this (final (setupTunnelServer outcome w)))) = true.
Proof.
  unfold setupTunnelServer, on_server_listening, on_server_error. eff.
  destruct outcome as [|err]; eff; [reflexivity|].
  rewrite TunnelProxy_dispose_closed. reflexivity.
Qed.

(** X17: once startProxy() has resolved, the proxy serves: the server is
    bound with its listeners installed, and the next client that connects is
    accepted, its forwarder entering the registry with a fresh reference. *)
Theorem X17_resolved_proxy_accepts_clients :
  forall (H : Host) (fuel : nat) (env : nat -> PollTurn) (w : World) (socket : Socket),
    completion (startProxy fuel env Listening w) = Returned tt ->
    let w1 := final (startProxy fuel env Listening w) in
    let a := accept socket w1 in
    listening (_server (this w1)) = true /\
    server_listeners (_server (this w1)) = true /\
    completion a = Returned tt /\
    _openSockets (this (final a)) = (_openSockets (this w1) ++ [length (heap w1)])%list /\
    heap (final a) = (heap w1 ++ [accepted_forwarder (length (heap w1)) socket (this w1)])%list.
Proof.
  intros H fuel env w socket Hc w1 a.
  assert (Hserver : listening (_server (this w1)) = true /\
                    server_listeners (_server (this w1)) = true).
  { subst w1. revert Hc. unfold startProxy.
    destruct (completion (checkTunnelStatusWithRetry fuel env w)) as [[]|e|] eqn:Hp.
    - rewrite (bind_returned (checkTunnelStatusWithRetry fuel env)
                             (fun _ => setupTunnelServer Listening) w tt Hp). project.
      intros _. split; [|apply setup_installs_listeners].
      destruct (setupTunnelServer_run Listening
                  (final (checkTunnelStatusWithRetry fuel env w))) as (rest & _ & _ & _ & Hl).
      exact Hl.
    - rewrite (bind_threw _ _ _ _ Hp). project. discriminate.
    - unfold bind. rewrite (run_eta (checkTunnelStatusWithRetry fuel env w)), Hp.
      project. discriminate. }
  destruct Hserver as [Hl Hs]. split; [exact Hl|]. split; [exact Hs|].
  subst a. unfold accept. eff. rewrite Hl, Hs. cbn [andb].
  destruct (on_server_connection_run socket w1) as (out & -> & _). project.
  repeat split; reflexivity.
Qed.

Lemma X17_resolved_proxy_accepts_clients_witness :
  let w1 := final (@startProxy plainHost 4 waking_env Listening (sample_world false)) in
  _openSockets (this (final (accept sample_socket w1))) = [0].
Proof.
  intros w1.
  pose proof (X17_resolved_proxy_accepts_clients plainHost 4 waking_env (sample_world false)
                sample_socket eq_refl) as (_ & _ & _ & Hreg & _).
  exact Hreg.
Defined.
